(** * The JSON-RPC client of the LSP plugin: rpc/client.py

    A shallow embedding of [format_request] and of the [Client] class
    (request numbering, the table of response handlers, the two reader
    loops), with the parts of the Python runtime they call: [str] and
    [bytes], [int()], UTF-8, [json.dumps] and [json.loads].

    Conventions.
    - A Python [str] is a list of code points ([N]); [bytes] is a list of
      [byte]; a Python [int] is a [Z].
    - JSON values are [None], [bool], [int], [str], [list] and [dict] with
      [str] keys. Python floats are left out: [json_loads] has no result for
      a number literal with a fraction or an exponent, and no theorem below
      draws a conclusion from the absence of a result for such a text.
    - A [dict] is an association list in insertion order, which is the order
      [json.dumps] writes and [json.loads] builds.
    - Exceptions are values of [exn]; [except C] is a test on the class. *)

From Stdlib Require Import ZArith NArith List Lia Bool.
From Stdlib.Strings Require Import Ascii String Byte.
From Stdlib Require Import Permutation Sorted.
From stdpp Require Import base gmap list.

Local Open Scope N_scope.

(** ** Text *)

Definition pystr := list N.
Definition bytes := list byte.

(** A literal of the source, as code points. *)
Definition lit (s : string) : pystr := map N_of_ascii (list_ascii_of_string s).

(** A bytes literal of the source. *)
Definition blit (s : string) : bytes := list_byte_of_string s.

Definition CR : N := 13.
Definition LF : N := 10.
Definition CRLF : pystr := [CR; LF].

Definition is_ascii (c : N) : bool := c <? 128.

(** Unicode scalar values: code points outside the surrogate range. A [str]
    obtained by decoding UTF-8 holds nothing else. *)
Definition is_scalar (c : N) : bool :=
  (c <? 0x110000) && negb ((0xD800 <=? c) && (c <=? 0xDFFF)).

Definition byte_of_N (n : N) : byte :=
  match Byte.of_N n with Some b => b | None => x00 end.

(** [str.encode('UTF-8')] for one code point; [None] is UnicodeEncodeError
    (a surrogate, which UTF-8 cannot carry). *)
Definition utf8_char (c : N) : option bytes :=
  if c <? 0x80 then Some [byte_of_N c]
  else if c <? 0x800 then
    Some [byte_of_N (N.lor 0xC0 (N.shiftr c 6));
          byte_of_N (N.lor 0x80 (N.land c 0x3F))]
  else if (0xD800 <=? c) && (c <=? 0xDFFF) then None
  else if c <? 0x10000 then
    Some [byte_of_N (N.lor 0xE0 (N.shiftr c 12));
          byte_of_N (N.lor 0x80 (N.land (N.shiftr c 6) 0x3F));
          byte_of_N (N.lor 0x80 (N.land c 0x3F))]
  else if c <? 0x110000 then
    Some [byte_of_N (N.lor 0xF0 (N.shiftr c 18));
          byte_of_N (N.lor 0x80 (N.land (N.shiftr c 12) 0x3F));
          byte_of_N (N.lor 0x80 (N.land (N.shiftr c 6) 0x3F));
          byte_of_N (N.lor 0x80 (N.land c 0x3F))]
  else None.

Fixpoint utf8_encode (s : pystr) : option bytes :=
  match s with
  | [] => Some []
  | c :: s' =>
      match utf8_char c, utf8_encode s' with
      | Some b, Some bs => Some (b ++ bs)
      | _, _ => None
      end
  end.

Definition is_cont (b : byte) : bool :=
  let n := Byte.to_N b in (0x80 <=? n) && (n <? 0xC0).

Definition cont_bits (b : byte) : N := N.land (Byte.to_N b) 0x3F.

(** [bytes.decode('UTF-8')]; [None] is UnicodeDecodeError. Overlong forms,
    surrogates and values above U+10FFFF are rejected, as CPython does. *)
Fixpoint utf8_decode (bs : bytes) : option pystr :=
  match bs with
  | [] => Some []
  | b0 :: r0 =>
      let n0 := Byte.to_N b0 in
      if n0 <? 0x80 then option_map (cons n0) (utf8_decode r0)
      else if n0 <? 0xC2 then None
      else if n0 <? 0xE0 then
        match r0 with
        | b1 :: r1 =>
            if is_cont b1
            then option_map
                   (cons (N.lor (N.shiftl (N.land n0 0x1F) 6) (cont_bits b1)))
                   (utf8_decode r1)
            else None
        | _ => None
        end
      else if n0 <? 0xF0 then
        match r0 with
        | b1 :: b2 :: r2 =>
            let c := N.lor (N.shiftl (N.land n0 0x0F) 12)
                       (N.lor (N.shiftl (cont_bits b1) 6) (cont_bits b2)) in
            if is_cont b1 && is_cont b2 && (0x800 <=? c)
               && negb ((0xD800 <=? c) && (c <=? 0xDFFF))
            then option_map (cons c) (utf8_decode r2)
            else None
        | _ => None
        end
      else if n0 <? 0xF5 then
        match r0 with
        | b1 :: b2 :: b3 :: r3 =>
            let c := N.lor (N.shiftl (N.land n0 0x07) 18)
                       (N.lor (N.shiftl (cont_bits b1) 12)
                          (N.lor (N.shiftl (cont_bits b2) 6) (cont_bits b3))) in
            if is_cont b1 && is_cont b2 && is_cont b3
               && (0x10000 <=? c) && (c <? 0x110000)
            then option_map (cons c) (utf8_decode r3)
            else None
        | _ => None
        end
      else None
  end.

(** The white space [bytes.strip()] and [int()] remove: space, tab, line
    feed, vertical tab, form feed, carriage return. *)
Definition is_space (c : N) : bool :=
  (c =? 32) || ((9 <=? c) && (c <=? 13)).

Fixpoint lstrip_by {A} (sp : A -> bool) (s : list A) : list A :=
  match s with
  | c :: s' => if sp c then lstrip_by sp s' else s
  | [] => []
  end.

Definition strip_by {A} (sp : A -> bool) (s : list A) : list A :=
  rev (lstrip_by sp (rev (lstrip_by sp s))).

Definition strip (s : pystr) : pystr := strip_by is_space s.

(** [bytes.strip()] *)
Definition bstrip (b : bytes) : bytes :=
  strip_by (fun x => is_space (Byte.to_N x)) b.

(** [s.startswith(p)] *)
Fixpoint startswith {A} (eqb : A -> A -> bool) (s p : list A) {struct p}
  : bool :=
  match p, s with
  | [], _ => true
  | c :: p', d :: s' => eqb c d && startswith eqb s' p'
  | _ :: _, [] => false
  end.

(** ** Integers as text: [str(int)] and [int(text)] *)

Definition digit_char (d : N) : N := 48 + d.

Definition is_digit (c : N) : bool := (48 <=? c) && (c <=? 57).

Fixpoint digits_aux (fuel : nat) (n : N) (acc : pystr) : pystr :=
  match fuel with
  | O => acc
  | S f =>
      if n <? 10 then digit_char n :: acc
      else digits_aux f (n / 10) (digit_char (n mod 10) :: acc)
  end.

(** The decimal digits of [n], most significant first. A number has no more
    decimal digits than binary ones, which bounds the recursion. *)
Definition str_of_N (n : N) : pystr :=
  digits_aux (S (N.to_nat (N.log2 n))) n [].

(** [str(z)], which is also what ["{}".format(z)] and [json.dumps] write. *)
Definition str_of_Z (z : Z) : pystr :=
  if (z <? 0)%Z then 45 :: str_of_N (Z.abs_N z) else str_of_N (Z.abs_N z).

(** The value of a string of decimal digits; [None] if another character
    occurs. *)
Fixpoint digits_value (acc : N) (s : pystr) : option N :=
  match s with
  | [] => Some acc
  | c :: s' =>
      if is_digit c then digits_value (10 * acc + (c - 48)) s' else None
  end.

Definition unsigned_of_text (s : pystr) : option N :=
  match s with
  | [] => None
  | _ :: _ => digits_value 0 s
  end.

(** [int(text)] on ASCII text: white space around, an optional sign, decimal
    digits. [None] is ValueError. (Digit separators and the non-ASCII digits
    and spaces that [int()] also takes are not modelled.) *)
Definition int_of_text (s : pystr) : option Z :=
  match strip s with
  | [] => None
  | c :: r =>
      if c =? 45 then option_map (fun n => (- Z.of_N n)%Z) (unsigned_of_text r)
      else if c =? 43 then option_map Z.of_N (unsigned_of_text r)
      else option_map Z.of_N (unsigned_of_text (c :: r))
  end.

(** ** Exceptions *)

Inductive exn :=
| IOError            (* OSError; IOError is its alias *)
| BrokenPipeError    (* a subclass of OSError *)
| ValueError         (* raised by int() and, as JSONDecodeError, by json.loads *)
| UnicodeDecodeError (* a subclass of ValueError *)
| UnicodeEncodeError (* a subclass of ValueError *)
| KeyError
| TypeError
| AttributeError
| NameError
| UnboundLocalError  (* a subclass of NameError *)
| UserError (tag : nat) (* any other Exception a callback raises *).

(** [except IOError] *)
Definition is_IOError (e : exn) : bool :=
  match e with IOError | BrokenPipeError => true | _ => false end.

(** [except BrokenPipeError] *)
Definition is_BrokenPipeError (e : exn) : bool :=
  match e with BrokenPipeError => true | _ => false end.

(** [except Exception] *)
Definition is_Exception (e : exn) : bool := true.

Inductive res (A : Type) :=
| Ok (a : A)
| Raise (e : exn).
Arguments Ok {A} a.
Arguments Raise {A} e.

(** ** JSON values *)

#[local] Unset Elimination Schemes.
Inductive value :=
| VNone
| VBool (b : bool)
| VInt (n : Z)
| VStr (s : pystr)
| VList (l : list value)
| VDict (d : list (pystr * value)).
#[local] Set Elimination Schemes.

Definition pystr_eqb (a b : pystr) : bool := bool_decide (a = b).

(** [d.get(k)]: the value under [k], if any. *)
Fixpoint dict_lookup (k : pystr) (d : list (pystr * value)) : option value :=
  match d with
  | [] => None
  | (k', v) :: d' => if pystr_eqb k k' then Some v else dict_lookup k d'
  end.

(** [k in d] *)
Definition dict_has (k : pystr) (d : list (pystr * value)) : bool :=
  match dict_lookup k d with Some _ => true | None => false end.

(** [d[k] = v]: a key already present keeps its place, a new one goes last. *)
Fixpoint dict_set (k : pystr) (v : value) (d : list (pystr * value))
  : list (pystr * value) :=
  match d with
  | [] => [(k, v)]
  | (k', v') :: d' =>
      if pystr_eqb k k' then (k, v) :: d' else (k', v') :: dict_set k v d'
  end.

(** [dict(pairs)] *)
Definition dict_of_pairs (ps : list (pystr * value)) : list (pystr * value) :=
  fold_left (fun d kv => dict_set (fst kv) (snd kv) d) ps [].

(** ** [json.dumps] with its defaults ([ensure_ascii=True], separators
       [", "] and [": "], [sort_keys=False]) *)

Definition hex_digit (d : N) : N := if d <? 10 then 48 + d else 87 + d.

(** ['{0:04x}'.format(n)] for [n < 0x10000] *)
Definition hex4 (n : N) : pystr :=
  [hex_digit (n / 4096 mod 16); hex_digit (n / 256 mod 16);
   hex_digit (n / 16 mod 16); hex_digit (n mod 16)].

(** ['\\u{0:04x}'.format(n)] *)
Definition uescape (n : N) : pystr := 92 :: 117 :: hex4 n.

(** One character of a string, as [encode_basestring_ascii] writes it:
    the short escapes of ESCAPE_DCT, [\uXXXX] for what is not in [' '..'~'],
    a surrogate pair above the basic plane. *)
Definition escape_char (c : N) : pystr :=
  if c =? 34 then [92; 34]
  else if c =? 92 then [92; 92]
  else if c =? 10 then [92; 110]
  else if c =? 13 then [92; 114]
  else if c =? 9 then [92; 116]
  else if c =? 8 then [92; 98]
  else if c =? 12 then [92; 102]
  else if (32 <=? c) && (c <=? 126) then [c]
  else if c <? 0x10000 then uescape c
  else
    let n := c - 0x10000 in
    let s1 := N.lor 0xd800 (N.land (N.shiftr n 10) 0x3ff) in
    let s2 := N.lor 0xdc00 (N.land n 0x3ff) in
    uescape s1 ++ uescape s2.

Definition encode_basestring_ascii (s : pystr) : pystr :=
  34 :: flat_map escape_char s ++ [34].

(** [sep.join(parts)] *)
Fixpoint join (sep : pystr) (parts : list pystr) : pystr :=
  match parts with
  | [] => []
  | [p] => p
  | p :: ps => p ++ sep ++ join sep ps
  end.

Fixpoint json_dumps (v : value) : pystr :=
  match v with
  | VNone => lit "null"
  | VBool true => lit "true"
  | VBool false => lit "false"
  | VInt n => str_of_Z n
  | VStr s => encode_basestring_ascii s
  | VList l => 91 :: join (lit ", ") (map json_dumps l) ++ [93]
  | VDict d =>
      123 :: join (lit ", ")
               (map (fun kv => encode_basestring_ascii (fst kv)
                                 ++ lit ": " ++ json_dumps (snd kv)) d)
          ++ [125]
  end.

(** ** [json.loads]

    The scanner of json.decoder and json.scanner, on the text that remains
    to be read. [None] is JSONDecodeError, except for a number literal with
    a fraction or an exponent and for [NaN] and [Infinity], whose values are
    floats. *)

(** The white space between JSON tokens. *)
Definition is_ws (c : N) : bool :=
  (c =? 32) || (c =? 9) || (c =? 10) || (c =? 13).

Definition skip_ws (s : pystr) : pystr := lstrip_by is_ws s.

Definition hex_value (c : N) : option N :=
  if is_digit c then Some (c - 48)
  else if (97 <=? c) && (c <=? 102) then Some (c - 87)
  else if (65 <=? c) && (c <=? 70) then Some (c - 55)
  else None.

Definition decode_uXXXX (a b c d : N) : option N :=
  match hex_value a, hex_value b, hex_value c, hex_value d with
  | Some x, Some y, Some z, Some w => Some (((x * 16 + y) * 16 + z) * 16 + w)
  | _, _, _, _ => None
  end.

(** The table BACKSLASH. *)
Definition unescape (e : N) : option N :=
  if e =? 34 then Some 34
  else if e =? 92 then Some 92
  else if e =? 47 then Some 47
  else if e =? 98 then Some 8
  else if e =? 102 then Some 12
  else if e =? 110 then Some 10
  else if e =? 114 then Some 13
  else if e =? 116 then Some 9
  else None.

Definition is_high (u : N) : bool := (0xd800 <=? u) && (u <=? 0xdbff).
Definition is_low (u : N) : bool := (0xdc00 <=? u) && (u <=? 0xdfff).

Definition push (c : N) (r : option (pystr * pystr)) : option (pystr * pystr) :=
  match r with
  | Some (s, rest) => Some (c :: s, rest)
  | None => None
  end.

(** [scanstring], entered after the opening quote: the string read and the
    text after its closing quote. *)
Fixpoint scanstring (s : pystr) : option (pystr * pystr) :=
  match s with
  | [] => None
  | c :: r =>
      if c =? 34 then Some ([], r)
      else if c =? 92 then
        match r with
        | [] => None
        | e :: r1 =>
            if e =? 117 then
              match r1 with
              | a :: b :: c2 :: d :: r2 =>
                  match decode_uXXXX a b c2 d with
                  | None => None
                  | Some uni =>
                      if is_high uni then
                        match r2 with
                        | bs :: u :: a' :: b' :: c' :: d' :: r3 =>
                            if (bs =? 92) && (u =? 117) then
                              match decode_uXXXX a' b' c' d' with
                              | None => None
                              | Some uni2 =>
                                  if is_low uni2
                                  then push (0x10000
                                             + N.lor (N.shiftl (uni - 0xd800) 10)
                                                     (uni2 - 0xdc00))
                                            (scanstring r3)
                                  else push uni (scanstring r2)
                              end
                            else push uni (scanstring r2)
                        | _ => push uni (scanstring r2)
                        end
                      else push uni (scanstring r2)
                  end
              | _ => None
              end
            else
              match unescape e with
              | Some ch => push ch (scanstring r1)
              | None => None
              end
        end
      else if c <? 32 then None
      else push c (scanstring r)
  end.

Fixpoint span_digits (s : pystr) : pystr * pystr :=
  match s with
  | c :: s' =>
      if is_digit c
      then let (ds, r) := span_digits s' in (c :: ds, r)
      else ([], s)
  | [] => ([], [])
  end.

(** The integer part of NUMBER_RE (an optional minus, then a lone zero or a
    non-zero digit and the digits that follow): the text matched and the
    text after it. *)
Definition match_integer (s : pystr) : option (pystr * pystr) :=
  let (sign, s1) :=
    match s with
    | c :: s' => if c =? 45 then ([45], s') else ([], s)
    | [] => ([], s)
    end in
  match s1 with
  | c :: s2 =>
      if c =? 48 then Some (sign ++ [48], s2)
      else if is_digit c
      then let (ds, r) := span_digits s2 in Some (sign ++ c :: ds, r)
      else None
  | [] => None
  end.

(** A number. After the integer part, ['.'], ['e'] or ['E'] begins a float
    or is an error wherever the number stands. *)
Definition scan_number (s : pystr) : option (value * pystr) :=
  match match_integer s with
  | None => None
  | Some (text, r) =>
      let int := match int_of_text text with
                 | Some z => Some (VInt z, r)
                 | None => None
                 end in
      match r with
      | c :: _ => if (c =? 46) || (c =? 101) || (c =? 69) then None else int
      | [] => int
      end
  end.

Fixpoint scan_once (fuel : nat) (s : pystr) {struct fuel}
  : option (value * pystr) :=
  match fuel with
  | O => None
  | S f =>
      match s with
      | [] => None
      | c :: r =>
          if c =? 34 then
            match scanstring r with
            | Some (t, r') => Some (VStr t, r')
            | None => None
            end
          else if c =? 123 then
            (* JSONObject *)
            match skip_ws r with
            | q :: r' =>
                if q =? 34 then
                  match object_items f r' with
                  | Some (kvs, r'') => Some (VDict (dict_of_pairs kvs), r'')
                  | None => None
                  end
                else if q =? 125 then Some (VDict [], r')
                else None
            | [] => None
            end
          else if c =? 91 then
            (* JSONArray *)
            match skip_ws r with
            | q :: r' =>
                if q =? 93 then Some (VList [], r')
                else
                  match array_items f (q :: r') with
                  | Some (vs, r'') => Some (VList vs, r'')
                  | None => None
                  end
            | [] => None
            end
          else if startswith N.eqb s (lit "null") then Some (VNone, skipn 4 s)
          else if startswith N.eqb s (lit "true") then Some (VBool true, skipn 4 s)
          else if startswith N.eqb s (lit "false") then Some (VBool false, skipn 5 s)
          else scan_number s
      end
  end

(** The loop of JSONArray, entered at the start of an element. *)
with array_items (fuel : nat) (s : pystr) {struct fuel}
  : option (list value * pystr) :=
  match fuel with
  | O => None
  | S f =>
      match scan_once f s with
      | None => None
      | Some (v, r) =>
          match skip_ws r with
          | c :: r' =>
              if c =? 93 then Some ([v], r')
              else if c =? 44 then
                match array_items f (skip_ws r') with
                | Some (vs, r'') => Some (v :: vs, r'')
                | None => None
                end
              else None
          | [] => None
          end
      end
  end

(** The loop of JSONObject, entered after the opening quote of a key. *)
with object_items (fuel : nat) (s : pystr) {struct fuel}
  : option (list (pystr * value) * pystr) :=
  match fuel with
  | O => None
  | S f =>
      match scanstring s with
      | None => None
      | Some (key, r) =>
          match skip_ws r with
          | c :: r1 =>
              if c =? 58 then
                match scan_once f (skip_ws r1) with
                | None => None
                | Some (v, r2) =>
                    match skip_ws r2 with
                    | d :: r3 =>
                        if d =? 125 then Some ([(key, v)], r3)
                        else if d =? 44 then
                          match skip_ws r3 with
                          | q :: r4 =>
                              if q =? 34 then
                                match object_items f r4 with
                                | Some (kvs, r5) => Some ((key, v) :: kvs, r5)
                                | None => None
                                end
                              else None
                          | [] => None
                          end
                        else None
                    | [] => None
                    end
                end
              else None
          | [] => None
          end
      end
  end.

(** [json.loads(s)]: one value, white space around it, nothing else. The
    text is longer than the nesting of any value it holds, so the recursion
    bound is never what stops the scanner. *)
Definition json_loads (s : pystr) : option value :=
  match scan_once (S (length s)) (skip_ws s) with
  | Some (v, r) =>
      match skip_ws r with
      | [] => Some v
      | _ :: _ => None
      end
  | None => None
  end.

(** JSON text written with ['] where it has the double quote. *)
Definition jlit (s : string) : pystr :=
  map (fun c => if c =? 39 then 34 else c) (lit s).

(** ** [format_request] *)

Definition format_request (payload : value) : pystr :=
  let content := json_dumps payload in
  let content_length := Z.of_nat (length content) in
  lit "Content-Length: " ++ str_of_Z content_length ++ CRLF ++ CRLF ++ content.

(** ** The subordinate process *)

(** What a read finds once the data is used up: the end of the file, or a
    failed read. *)
Inductive ending := Eof | Broken.

Record channel := { data : bytes; at_end : ending }.

Record process_t := {
  stdout : channel;
  stderr : channel;
  stdin_open : bool;  (* false: a write raises BrokenPipeError *)
  alive : nat         (* the polls that still answer None *)
}.

Definition with_stdout (ch : channel) (p : process_t) : process_t :=
  {| stdout := ch; stderr := stderr p; stdin_open := stdin_open p;
     alive := alive p |}.

Definition with_stderr (ch : channel) (p : process_t) : process_t :=
  {| stdout := stdout p; stderr := ch; stdin_open := stdin_open p;
     alive := alive p |}.

Definition with_alive (n : nat) (p : process_t) : process_t :=
  {| stdout := stdout p; stderr := stderr p; stdin_open := stdin_open p;
     alive := n |}.

(** The line up to and including the first line feed, and what follows it;
    no second part if there is no line feed. *)
Fixpoint take_line (b : bytes) : bytes * option bytes :=
  match b with
  | [] => ([], None)
  | x :: b' =>
      if Byte.eqb x x0a then ([x], Some b')
      else let (l, r) := take_line b' in (x :: l, r)
  end.

(** [channel.readline()] *)
Definition chan_readline (ch : channel) : res bytes * channel :=
  match take_line (data ch) with
  | (l, Some r) => (Ok l, {| data := r; at_end := at_end ch |})
  | (l, None) =>
      match at_end ch with
      | Eof => (Ok l, {| data := []; at_end := Eof |})
      | Broken => (Raise IOError, {| data := []; at_end := Broken |})
      end
  end.

(** [channel.read(n)] *)
Definition chan_read (n : nat) (ch : channel) : res bytes * channel :=
  if (n <=? length (data ch))%nat
  then (Ok (firstn n (data ch)), {| data := skipn n (data ch); at_end := at_end ch |})
  else
    match at_end ch with
    | Eof => (Ok (data ch), {| data := []; at_end := Eof |})
    | Broken => (Raise IOError, {| data := []; at_end := Broken |})
    end.

(** ** What the client does to the world around it *)

(** A response handler: a callable, known here by a name. *)
Definition handler := nat.

(** The messages handed to [debug] and [printf], one per call site. *)
Inductive logmsg :=
| RequestSent (id : Z) (method : pystr)  (* 'request {}: {} ' *)
| NotifySent (method : pystr)            (* 'notify: ' *)
| ClientDied (e : exn)                   (* "client unexpectedly died:" *)
| GotJson (text : pystr)                 (* "got json: " *)
| NonJson (content : pystr)              (* "Got a non-JSON payload: " *)
| GotError (error : value)               (* "got error: " *)
| UnknownPayload (payload : value)       (* "Unknown payload type: " *)
| HandlingFailed (err : exn)             (* "Error handling server content:" *)
| StdoutException (e : exn)              (* "LSP stdout process ending due to exception: " *)
| StdoutEnded                            (* "LSP stdout process ended." *)
| StderrLine (content : bytes)           (* "(stderr): " *)
| StderrException (e : exn)              (* "LSP stderr process ending due to exception: " *)
| StderrEnded                            (* "LSP stderr process ended." *)
| ResponseFailed (handler_id : Z)        (* "error handling response" *)
| NoHandler (id : pystr)                 (* "No handler found for id" *)
| UnhandledRequest (method : value)      (* "Unhandled request" *)
| UnhandledNotification (method : value) (* "Unhandled notification:" *).

Inductive event :=
| Debug (m : logmsg)
| Printf (m : logmsg)
| Called (h : handler) (arg : value)   (* self.handlers[handler_id](result) *)
| Wrote (b : bytes)                    (* process.stdin.write *)
| Flushed                              (* process.stdin.flush *)
| Terminated                           (* process.terminate *)
| Killed                               (* process.kill *)
| StatusMessage (message : value)      (* sublime.status_message *)
| ApplyWorkspaceEdit (params : value)  (* apply_workspace_edit *)
| Published (params : value)           (* Events.publish("document.diagnostics", _) *)
| MessageDialog (message : value)      (* message_dialog *)
| ServerLog (message : value)          (* server_log *).

(** What the module does not define itself. The names [sublime],
    [apply_workspace_edit] and [log_server] are used by the module and not
    imported by it: using one that the module namespace does not hold raises
    NameError. *)
Record environ := {
  call : handler -> value -> option exn;  (* a handler returns, or raises;
                                             it is not taken to call back
                                             into the client *)
  sink : event -> option exn;             (* so does a collaborator *)
  log_stderr : bool;                      (* core.settings.log_stderr *)
  log_server : option bool;
  has_sublime : bool;
  has_apply_workspace_edit : bool
}.

(** ** The client *)

Record client := {
  process : option process_t;   (* self.process *)
  request_id : Z;               (* self.request_id *)
  handlers : gmap Z handler;    (* self.handlers *)
  trace : list event            (* what has happened, oldest first *)
}.

Definition with_process (p : option process_t) (c : client) : client :=
  {| process := p; request_id := request_id c; handlers := handlers c;
     trace := trace c |}.

Definition with_request_id (n : Z) (c : client) : client :=
  {| process := process c; request_id := n; handlers := handlers c;
     trace := trace c |}.

Definition with_handlers (h : gmap Z handler) (c : client) : client :=
  {| process := process c; request_id := request_id c; handlers := h;
     trace := trace c |}.

Definition with_trace (t : list event) (c : client) : client :=
  {| process := process c; request_id := request_id c; handlers := handlers c;
     trace := t |}.

(** [Client.__init__]: no request sent, no handler registered. *)
Definition new_client (p : process_t) : client :=
  {| process := Some p; request_id := 0; handlers := ∅; trace := [] |}.

(** Code that changes the client and returns or raises. *)
Definition M (A : Type) : Type := client -> res A * client.

Definition ret {A} (a : A) : M A := fun c => (Ok a, c).

Definition raise {A} (e : exn) : M A := fun c => (Raise e, c).

Definition bind {A B} (m : M A) (k : A -> M B) : M B :=
  fun c =>
    match m c with
    | (Ok a, c') => k a c'
    | (Raise e, c') => (Raise e, c')
    end.

Notation "'let*' x := e 'in' k" := (bind e (fun x => k))
  (at level 10, x name, e at level 100, k at level 200).

Notation "e >> k" := (bind e (fun _ => k))
  (at level 65, right associativity).

(** [try: body except C as e: h] *)
Definition try_except {A} (body : M A) (cls : exn -> bool) (h : exn -> M A)
  : M A :=
  fun c =>
    match body c with
    | (Raise e, c') => if cls e then h e c' else (Raise e, c')
    | r => r
    end.

Definition emit (ev : event) : M unit :=
  fun c => (Ok tt, with_trace (trace c ++ [ev]) c).

Definition debug (m : logmsg) : M unit := emit (Debug m).
Definition printf (m : logmsg) : M unit := emit (Printf m).

Definition lift {A} (r : res A) : M A := fun c => (r, c).

Definition of_option {A} (o : option A) (e : exn) : M A :=
  match o with Some a => ret a | None => raise e end.

(** Evaluating [self.process.attr]: AttributeError once [self.process] is
    [None]. *)
Definition self_process : M process_t :=
  fun c => match process c with
           | Some p => (Ok p, c)
           | None => (Raise AttributeError, c)
           end.

Definition set_process (p : option process_t) : M unit :=
  fun c => (Ok tt, with_process p c).

(** [self.process.poll() is None] *)
Definition poll_is_None : M bool :=
  let* p := self_process in
  match alive p with
  | S n => set_process (Some (with_alive n p)) >> ret true
  | O => ret false
  end.

Definition stdout_readline : M bytes :=
  let* p := self_process in
  let (r, ch) := chan_readline (stdout p) in
  set_process (Some (with_stdout ch p)) >> lift r.

Definition stdout_read (n : nat) : M bytes :=
  let* p := self_process in
  let (r, ch) := chan_read n (stdout p) in
  set_process (Some (with_stdout ch p)) >> lift r.

Definition stderr_readline : M bytes :=
  let* p := self_process in
  let (r, ch) := chan_readline (stderr p) in
  set_process (Some (with_stderr ch p)) >> lift r.

(** [self.process.terminate()] *)
Definition terminate : M unit :=
  let* p := self_process in
  set_process (Some (with_alive 0 p)) >> emit Terminated.

(** Requests and notifications come from rpc/protocol.py. *)
Record Request := { method : pystr; params : value }.

(** Modelled from the spec: [Request.to_payload] and
    [Notification.to_payload] of rpc/protocol.py, a module that is not among
    the sources. The spec gives the outbound request the fields method,
    params and id, and the outbound notification method and params. *)
Definition to_payload (r : Request) (id : Z) : value :=
  VDict [(lit "method", VStr (method r)); (lit "params", params r);
         (lit "id", VInt id)].

Definition notification_payload (r : Request) : value :=
  VDict [(lit "method", VStr (method r)); (lit "params", params r)].

(** [d.get(k)], with [None] for a missing key. *)
Definition dict_get (k : pystr) (d : list (pystr * value)) : value :=
  match dict_lookup k d with Some v => v | None => VNone end.

(** [v.get(k)]: only a dict has the method. *)
Definition py_get (v : value) (k : pystr) : res value :=
  match v with
  | VDict d => Ok (dict_get k d)
  | _ => Raise AttributeError
  end.

(** [v == s] for a str literal [s] *)
Definition is_str (v : value) (s : pystr) : bool :=
  match v with
  | VStr t => pystr_eqb t s
  | _ => false
  end.

(** [int(v)] *)
Definition py_int (v : value) : res Z :=
  match v with
  | VInt n => Ok n
  | VBool b => Ok (if b then 1 else 0)%Z
  | VStr s =>
      match int_of_text s with
      | Some n => Ok n
      | None => Raise ValueError
      end
  | VNone | VList _ | VDict _ => Raise TypeError
  end.

(** The truth value of a handler: that of a function object. *)
Definition truth (h : handler) : bool := true.

Section Client.

Variable E : environ.

(** A call of a collaborator outside the module. *)
Definition ext (ev : event) : M unit :=
  emit ev >>
  match sink E ev with
  | Some e => raise e
  | None => ret tt
  end.

(** Evaluating a global name that the module does not import. *)
Definition global (bound : bool) : M unit :=
  if bound then ret tt else raise NameError.

Definition send_payload (payload : value) : M unit :=
  try_except
    (let message := format_request payload in
     let* p := self_process in
     let* b := of_option (utf8_encode message) UnicodeEncodeError in
     if stdin_open p then emit (Wrote b) >> emit Flushed
     else raise BrokenPipeError)
    is_BrokenPipeError
    (fun e => printf (ClientDied e)).

Definition send_request (request : Request) (h : option handler) : M unit :=
  (fun c => (Ok tt, with_request_id (request_id c + 1) c)) >>
  let* id := (fun c => (Ok (request_id c), c)) in
  debug (RequestSent id (method request)) >>
  match h with
  | Some f => fun c => (Ok tt, with_handlers (<[id := f]> (handlers c)) c)
  | None => ret tt
  end >>
  send_payload (to_payload request id).

Definition send_notification (notification : Request) : M unit :=
  debug (NotifySent (method notification)) >>
  send_payload (notification_payload notification).

Definition response_handler (response : list (pystr * value)) : M unit :=
  match py_int (dict_get (lit "id") response) with
  | Raise e =>
      (* [handler_id] was never bound: the handler's own [debug] call fails *)
      raise UnboundLocalError
  | Ok handler_id =>
      try_except
        (let result := dict_get (lit "result") response in
         let* h := (fun c => of_option (handlers c !! handler_id) KeyError c) in
         if truth h then
           emit (Called h result) >>
           match call E h result with
           | Some e => raise e
           | None => ret tt
           end
         else
           match dict_get (lit "id") response with
           | VStr s => debug (NoHandler s)
           | _ => raise TypeError
           end)
        is_Exception
        (fun e => debug (ResponseFailed handler_id) >> raise e)
  end.

Definition request_handler (request : list (pystr * value)) : M unit :=
  let method := dict_get (lit "method") request in
  if is_str method (lit "workspace/applyEdit") then
    global (has_apply_workspace_edit E) >>
    global (has_sublime E) >>
    ext (ApplyWorkspaceEdit (dict_get (lit "params") request))
  else debug (UnhandledRequest method).

Definition notification_handler (response : list (pystr * value)) : M unit :=
  let method := dict_get (lit "method") response in
  if is_str method (lit "textDocument/publishDiagnostics") then
    ext (Published (dict_get (lit "params") response))
  else if is_str method (lit "window/showMessage") then
    global (has_sublime E) >>
    let* message := lift (py_get (dict_get (lit "params") response) (lit "message")) in
    ext (MessageDialog message)
  else
    let* logged :=
      (if is_str method (lit "window/logMessage")
       then of_option (log_server E) NameError
       else ret false) in
    if logged then
      self_process >>
      let* message := lift (py_get (dict_get (lit "params") response) (lit "message")) in
      ext (ServerLog message)
    else debug (UnhandledNotification method).

(** Lines 98-110: the branches on the fields of a payload. *)
Definition dispatch (payload : list (pystr * value)) : M unit :=
  if dict_has (lit "error") payload then
    let error := dict_get (lit "error") payload in
    debug (GotError error) >>
    global (has_sublime E) >>
    let* message := lift (py_get error (lit "message")) in
    ext (StatusMessage message)
  else if dict_has (lit "method") payload then
    if dict_has (lit "id") payload then request_handler payload
    else notification_handler payload
  else if dict_has (lit "id") payload then response_handler payload
  else debug (UnknownPayload (VDict payload)).

Definition ContentLengthHeader : bytes := blit "Content-Length: ".

(** The loop [while in_headers]. Each turn but the last takes at least one
    byte off the channel, which bounds the turns. *)
Fixpoint read_headers (fuel : nat) (content_length : Z) : M Z :=
  match fuel with
  | O => ret content_length
  | S f =>
      let* line := stdout_readline in
      let header := bstrip line in
      let in_headers := negb (length header =? 0)%nat in
      let* content_length :=
        (if startswith Byte.eqb header ContentLengthHeader
         then of_option
                (int_of_text
                   (map Byte.to_N (skipn (length ContentLengthHeader) header)))
                ValueError
         else ret content_length) in
      if in_headers then read_headers f content_length
      else ret content_length
  end.

Definition pending (c : client) : nat :=
  match process c with
  | Some p => length (data (stdout p))
  | None => O
  end.

(** Lines 87-95: the payload, once it has answered [get]; nothing after
    [continue]. *)
Definition parse_content (content : pystr)
  : M (option (list (pystr * value))) :=
  try_except
    (let* payload := of_option (json_loads content) ValueError in
     let limit := Nat.min (length content) 200 in
     match payload with
     | VDict d =>
         (if negb (is_str (dict_get (lit "method") d) (lit "window/logMessage"))
          then debug (GotJson (firstn limit content))
          else ret tt) >>
         ret (Some d)
     | _ => raise AttributeError
     end)
    is_IOError
    (fun _ => printf (NonJson content) >> ret None).

Inductive flow := Next | Return.

(** Lines 73-85: the header loop, then the body and its text; nothing when
    no positive length was announced. *)
Definition read_content : M (option pystr) :=
  let* content_length := (fun c => read_headers (S (pending c)) 0 c) in
  if (0 <? content_length)%Z then
    let* raw := stdout_read (Z.to_nat content_length) in
    let* content := of_option (utf8_decode raw) UnicodeDecodeError in
    ret (Some content)
  else ret None.

(** Lines 97-112: a payload is dispatched; what this raises is logged. *)
Definition handle (payload : list (pystr * value)) : M unit :=
  try_except (dispatch payload) is_Exception
    (fun err => printf (HandlingFailed err)).

(** One turn of the loop of [read_stdout]. *)
Definition stdout_turn : M flow :=
  try_except
    (let* content := read_content in
     match content with
     | None => ret Next
     | Some content =>
         let* parsed := parse_content content in
         match parsed with
         | None => ret Next
         | Some payload => handle payload >> ret Next
         end
     end)
    is_IOError
    (fun e =>
       printf (StdoutException e) >>
       terminate >>
       set_process None >>
       ret Return).

(** [while self.process.poll() is None]: a live subordinate answers one
    poll fewer each turn, which bounds the turns. *)
Fixpoint stdout_loop (fuel : nat) : M unit :=
  match fuel with
  | O => ret tt
  | S f =>
      let* running := poll_is_None in
      if running then
        let* fl := stdout_turn in
        match fl with
        | Next => stdout_loop f
        | Return => ret tt
        end
      else debug StdoutEnded
  end.

Definition lifetime (c : client) : nat :=
  match process c with
  | Some p => alive p
  | None => O
  end.

Definition read_stdout : M unit :=
  fun c => stdout_loop (S (lifetime c)) c.

Definition stderr_turn : M flow :=
  try_except
    (let* content := stderr_readline in
     (if log_stderr E && (0 <? length content)%nat
      then printf (StderrLine (bstrip content))
      else ret tt) >>
     ret Next)
    is_IOError
    (fun e => printf (StderrException e) >> ret Return).

Fixpoint stderr_loop (fuel : nat) : M unit :=
  match fuel with
  | O => ret tt
  | S f =>
      let* running := poll_is_None in
      if running then
        let* fl := stderr_turn in
        match fl with
        | Next => stderr_loop f
        | Return => ret tt
        end
      else debug StderrEnded
  end.

Definition read_stderr : M unit :=
  fun c => stderr_loop (S (lifetime c)) c.

End Client.

(** What [send_payload] puts on the wire for a payload. *)
Definition encode (payload : value) : option bytes :=
  utf8_encode (format_request payload).

(** What the reader makes of the next message on the channel, up to the
    call of [json.loads]: lines 73-89 without the logging. *)
Definition decode : M (option value) :=
  let* content := read_content in
  match content with
  | None => ret None
  | Some content =>
      let* payload := of_option (json_loads content) ValueError in
      ret (Some payload)
  end.

(** The payloads a JSON text can stand for and come back from: strings of
    Unicode scalar values, dicts without a repeated key. *)
Fixpoint wf_value (v : value) : bool :=
  match v with
  | VNone | VBool _ | VInt _ => true
  | VStr s => forallb is_scalar s
  | VList l => forallb wf_value l
  | VDict d =>
      forallb (fun kv => forallb is_scalar (fst kv) && wf_value (snd kv)) d
      && bool_decide (NoDup (map fst d))
  end.

(** The handler calls recorded in a trace, in order. *)
Fixpoint calls (t : list event) : list (handler * value) :=
  match t with
  | [] => []
  | Called h v :: t' => (h, v) :: calls t'
  | _ :: t' => calls t'
  end.

(** The ids given to requests, as [send_request] logs them, in order. *)
Fixpoint sent_ids (t : list event) : list Z :=
  match t with
  | [] => []
  | Debug (RequestSent id _) :: t' => id :: sent_ids t'
  | _ :: t' => sent_ids t'
  end.

(** Requests sent one after the other. *)
Fixpoint send_all (reqs : list (Request * option handler)) : M unit :=
  match reqs with
  | [] => ret tt
  | (r, h) :: rest => send_request r h >> send_all rest
  end.

(** Payloads handled one after the other, as the reader loop does. *)
Fixpoint handle_all (E : environ) (ps : list (list (pystr * value))) : M unit :=
  match ps with
  | [] => ret tt
  | d :: rest => handle E d >> handle_all E rest
  end.

(** The response [{id, result}]. *)
Definition response (id : value) (result : value) : list (pystr * value) :=
  [(lit "id", id); (lit "result", result)].

(** The bytes of an inbound message with the given body. *)
Definition frame (body : bytes) : bytes :=
  ContentLengthHeader
    ++ map byte_of_N (str_of_Z (Z.of_nat (length body)))
    ++ [x0d; x0a; x0d; x0a] ++ body.

(** What the client goes through: requests and notifications sent, payloads
    handled by the reader. *)
Inductive op :=
| Send (r : Request) (h : option handler)
| Notify (r : Request)
| Receive (d : list (pystr * value)).

Fixpoint run_ops (E : environ) (ops : list op) : M unit :=
  match ops with
  | [] => ret tt
  | Send r h :: rest => send_request r h >> run_ops E rest
  | Notify r :: rest => send_notification r >> run_ops E rest
  | Receive d :: rest => handle E d >> run_ops E rest
  end.

Fixpoint sends (ops : list op) : nat :=
  match ops with
  | [] => O
  | Send _ _ :: rest => S (sends rest)
  | _ :: rest => sends rest
  end.

(** A step that leaves the process, the counter and the table alone and
    logs no request. *)
Definition steady (c c' : client) : Prop :=
  process c' = process c
  /\ request_id c' = request_id c
  /\ handlers c' = handlers c
  /\ exists evs, trace c' = trace c ++ evs /\ sent_ids evs = [].

Definition Steady {A} (m : M A) : Prop := forall c, steady c (snd (m c)).

(** ** Induction on values *)

Section ValueInd.

Variable P : value -> Prop.
Hypothesis HNone : P VNone.
Hypothesis HBool : forall b, P (VBool b).
Hypothesis HInt : forall n, P (VInt n).
Hypothesis HStr : forall s, P (VStr s).
Hypothesis HList : forall l, Forall P l -> P (VList l).
Hypothesis HDict : forall d, Forall (fun kv => P (snd kv)) d -> P (VDict d).

Fixpoint value_ind (v : value) : P v :=
  match v with
  | VNone => HNone
  | VBool b => HBool b
  | VInt n => HInt n
  | VStr s => HStr s
  | VList l =>
      HList l
        ((fix go (l : list value) : Forall P l :=
            match l with
            | [] => List.Forall_nil P
            | x :: l' => @List.Forall_cons _ P x l' (value_ind x) (go l')
            end) l)
  | VDict d =>
      HDict d
        ((fix go (d : list (pystr * value)) : Forall (fun kv => P (snd kv)) d :=
            match d with
            | [] => List.Forall_nil _
            | kv :: d' =>
                @List.Forall_cons _ (fun kv => P (snd kv)) kv d' (value_ind (snd kv)) (go d')
            end) d)
  end.

End ValueInd.

(** The channel after one message has been taken off it. *)
Definition advanced (rest : bytes) (p : process_t) (c : client) : client :=
  with_process
    (Some (with_stdout {| data := rest; at_end := at_end (stdout p) |} p)) c.

(** What [parse_content] logs for a payload: its text, cut at 200
    characters, unless the payload is a log message. *)
Definition got_json (text : pystr) (d : list (pystr * value)) : list event :=
  if negb (is_str (dict_get (lit "method") d) (lit "window/logMessage"))
  then [Debug (GotJson (firstn (Nat.min (length text) 200) text))]
  else [].

(** ** A setting to run the client in *)

(** The module as it is imported: [sublime], [apply_workspace_edit] and
    [log_server] are not bound; handlers and collaborators return. *)
Definition plain : environ :=
  {| call := fun _ _ => None;
     sink := fun _ => None;
     log_stderr := true;
     log_server := None;
     has_sublime := false;
     has_apply_workspace_edit := false |}.

(** A subordinate that has [out] on its standard output, nothing on its
    standard error, and answers [n] polls as alive. *)
Definition subordinate (out : bytes) (n : nat) : process_t :=
  {| stdout := {| data := out; at_end := Eof |};
     stderr := {| data := []; at_end := Eof |};
     stdin_open := true;
     alive := n |}.

(** The bytes of an ASCII text. *)
Definition ascii_bytes (s : pystr) : bytes := map byte_of_N s.

Definition initialize : Request :=
  {| method := lit "initialize"; params := VDict [] |}.

(** A client that has sent [initialize] with handler 7, the subordinate
    having [out] to say. *)
Definition initialized (out : bytes) (n : nat) : client :=
  snd (send_request initialize (Some 7%nat) (new_client (subordinate out n))).

(** The response [{id: 1, error: {message: "x"}}]. *)
Definition error_response : list (pystr * value) :=
  [(lit "id", VInt 1); (lit "error", VDict [(lit "message", VStr (lit "x"))])].

(** Two responses on the wire: one for id 5, which nobody asked for, then
    one for id 1. *)
Definition stray_body : bytes := ascii_bytes (jlit "{'id':5,'result':{}}").
Definition due_body : bytes := ascii_bytes (jlit "{'id':1,'result':{}}").

(** A body that is not JSON. *)
Definition junk_body : bytes := ascii_bytes (lit "not json").

(** A subordinate whose standard output fails at the next read. *)
Definition failing (err : channel) (open : bool) (n : nat) : process_t :=
  {| stdout := {| data := []; at_end := Broken |};
     stderr := err;
     stdin_open := open;
     alive := S n |}.

(** Requests that all have a handler. *)
Definition with_handlers_all (reqs : list (Request * handler))
  : list (Request * option handler) :=
  map (fun rh => (fst rh, Some (snd rh))) reqs.

(** The responses to the requests at the positions [order] (counted from
    0; the request at position [i] has id [i + 1]), each with the result
    the list [results] holds for it. *)
Definition answers (results : list value) (order : list nat)
  : list (list (pystr * value)) :=
  map (fun i => response (VInt (Z.of_nat (S i))) (nth i results VNone)) order.

(** Three requests with the handlers 7, 8 and 9, and the results the
    subordinate has for them. *)
Definition three_requests : list (Request * handler) :=
  [(initialize, 7%nat);
   ({| method := lit "textDocument/hover"; params := VDict [] |}, 8%nat);
   ({| method := lit "shutdown"; params := VNone |}, 9%nat)].

Definition three_results : list value :=
  [VDict [(lit "capabilities", VDict [])]; VStr (lit "doc"); VNone].

(** Text after which a number literal ends: the end, or a character that is
    neither a digit nor the start of a fraction or an exponent. *)
Definition ends_number (rest : pystr) : bool :=
  match rest with
  | [] => true
  | c :: _ => negb (is_digit c) && negb ((c =? 46) || (c =? 101) || (c =? 69))
  end.

(** How deep the scanner's recursion goes on the text of a value: one for
    the value, one for each element of a list or member of a dict. *)
Fixpoint need (v : value) : nat :=
  match v with
  | VList l => S (fold_right (fun x acc => S (need x + acc)) O l)
  | VDict d => S (fold_right (fun kv acc => S (need (snd kv) + acc)) O d)
  | _ => 1
  end.

(** What [json.dumps] writes for one member of a dict. *)
Definition member (kv : pystr * value) : pystr :=
  encode_basestring_ascii (fst kv) ++ lit ": " ++ json_dumps (snd kv).

(** A payload with text outside ASCII: e acute, a character above the basic
    plane, a line feed and a quote. *)
Definition accented : value :=
  VDict [(lit "method", VStr (lit "window/showMessage"));
         (lit "params",
          VDict [(lit "message", VStr [233; 0x1F600; 10; 34]);
                 (lit "codes", VList [VInt (-1); VInt 0; VBool true; VNone])])].

(** The responses to [three_requests] on the wire, in the order 3, 1, 2;
    the id of the second is a string. *)
Definition three_frames : bytes :=
  frame (ascii_bytes (jlit "{'id': 3, 'result': null}"))
    ++ frame (ascii_bytes (jlit "{'jsonrpc': '2.0', 'id': '1', 'result': {'capabilities': {}}}"))
    ++ frame (ascii_bytes (jlit "{'result': 'doc', 'id': 2}")).

(** ** More of the setting *)

(** The bytes handed to [process.stdin.write], in order. *)
Fixpoint writes (t : list event) : list bytes :=
  match t with
  | [] => []
  | Wrote b :: t' => b :: writes t'
  | _ :: t' => writes t'
  end.

(** What [send_payload] writes for a payload. *)
Definition wire_of (payload : value) : bytes :=
  frame (ascii_bytes (json_dumps payload)).

(** A step that leaves the process, the counter and the table alone and
    adds nothing that [obs] sees to the trace. *)
Definition kept {X} (obs : list event -> list X) (c c' : client) : Prop :=
  process c' = process c
  /\ request_id c' = request_id c
  /\ handlers c' = handlers c
  /\ exists evs, trace c' = trace c ++ evs /\ obs evs = [].

Definition Keeps {X A} (obs : list event -> list X) (m : M A) : Prop :=
  forall c, kept obs c (snd (m c)).

(** What goes out for a run of operations, the counter standing at [k]. *)
Fixpoint wires (k : Z) (ops : list op) : list bytes :=
  match ops with
  | [] => []
  | Send r _ :: rest => wire_of (to_payload r (k + 1)) :: wires (k + 1) rest
  | Notify r :: rest => wire_of (notification_payload r) :: wires k rest
  | Receive _ :: rest => wires k rest
  end.

(** ** Header blocks *)

(** A header line: [Content-Length: n], or some other text. *)
Inductive hline :=
| Length (n : N)
| Other (h : bytes).

(** The end of a line: carriage return and line feed, or a bare line feed. *)
Definition eol (crlf : bool) : bytes := if crlf then [x0d; x0a] else [x0a].

Definition hline_text (l : hline) : bytes :=
  match l with
  | Length n => ContentLengthHeader ++ map byte_of_N (str_of_N n)
  | Other h => h
  end.

(** A header line on the wire, with the line end it comes with. *)
Definition hline_bytes (l : hline * bool) : bytes :=
  hline_text (fst l) ++ eol (snd l).

Definition no_LF (b : bytes) : bool :=
  forallb (fun x => negb (Byte.eqb x x0a)) b.

(** Another header: a line without a line feed inside that, stripped, is not
    empty and does not begin with [Content-Length: ]. *)
Definition line_ok (l : hline * bool) : bool :=
  match fst l with
  | Length _ => true
  | Other h =>
      no_LF h
      && negb (length (bstrip (hline_bytes l)) =? 0)%nat
      && negb (startswith Byte.eqb (bstrip (hline_bytes l)) ContentLengthHeader)
  end.

(** The length a header block announces, starting from [cl]: that of its
    last [Content-Length] line. *)
Fixpoint last_length (cl : Z) (ls : list (hline * bool)) : Z :=
  match ls with
  | [] => cl
  | (Length n, _) :: rest => last_length (Z.of_N n) rest
  | (Other _, _) :: rest => last_length cl rest
  end.

(** A header block on the wire: its lines, then an empty line. *)
Definition header_block (ls : list (hline * bool)) (blank : bool) : bytes :=
  concat (map hline_bytes ls) ++ eol blank.

(** A header block with a header the reader does not know, a first length
    and, last, the length of [due_body]; the empty line ends with a bare line
    feed. *)
Definition mixed_block : list (hline * bool) :=
  [(Other (blit "Content-Type: application/vscode-jsonrpc"), true);
   (Length 5, false);
   (Length 20, true)].

(** A setting like [plain] in which every handler raises. *)
Definition rude : environ :=
  {| call := fun _ _ => Some (UserError 1);
     sink := fun _ => None;
     log_stderr := true;
     log_server := None;
     has_sublime := false;
     has_apply_workspace_edit := false |}.

(** A client whose subordinate has [d] on its standard error, followed by
    [e], and answers [n] more polls as alive. *)
Definition err_client (out : channel) (open : bool) (rid : Z)
    (hs : gmap Z handler) (d : bytes) (e : ending) (n : nat) (t : list event)
  : client :=
  {| process := Some {| stdout := out;
                        stderr := {| data := d; at_end := e |};
                        stdin_open := open;
                        alive := n |};
     request_id := rid; handlers := hs; trace := t |}.

(** Lines of text, each ended by a line feed. *)
Definition text_lines (lines : list bytes) : bytes :=
  concat (map (fun l => l ++ [x0a]) lines).

(** What [read_stderr] prints for these lines. *)
Definition stderr_prints (E : environ) (lines : list bytes) : list event :=
  if log_stderr E
  then map (fun l => Printf (StderrLine (bstrip (l ++ [x0a])))) lines
  else [].

(** * Properties *)

(** Literals and lookups stay folded under [cbn]. *)
Arguments lit : simpl never.
Arguments jlit : simpl never.
Arguments dict_get : simpl never.
Arguments dict_has : simpl never.
Arguments py_get : simpl never.
Arguments py_int : simpl never.

(** [lia] is to know division and remainder. *)
Ltac Zify.zify_post_hook ::= Z.to_euclidean_division_equations.

(** ** Decimal digits *)

Lemma is_digit_digit_char d : d < 10 -> is_digit (digit_char d) = true.
Proof.
  intros H. unfold is_digit, digit_char.
  apply andb_true_iff; split; apply N.leb_le; lia.
Qed.

Lemma is_digit_range c : is_digit c = true <-> 48 <= c <= 57.
Proof.
  unfold is_digit. rewrite andb_true_iff, !N.leb_le. tauto.
Qed.

Lemma digits_aux_app fuel : forall n acc,
  digits_aux fuel n acc = digits_aux fuel n [] ++ acc.
Proof.
  induction fuel as [|f IH]; intros n acc; simpl; [reflexivity|].
  destruct (n <? 10); [reflexivity|].
  rewrite (IH _ (_ :: acc)), (IH _ [_]), <- app_assoc. reflexivity.
Qed.

Lemma digits_value_snoc s : forall a c,
  is_digit c = true ->
  digits_value a (s ++ [c])
  = option_map (fun v => 10 * v + (c - 48)) (digits_value a s).
Proof.
  induction s as [|d s IH]; intros a c Hc; simpl.
  - rewrite Hc. reflexivity.
  - destruct (is_digit d); [apply IH; exact Hc | reflexivity].
Qed.

Lemma half_bound n k : 10 <= n -> n < 2 * k -> n / 10 < k.
Proof.
  intros H10 Hk. lia.
Qed.

Lemma digits_aux_value fuel : forall n,
  n < 2 ^ N.of_nat fuel ->
  digits_value 0 (digits_aux fuel n []) = Some n.
Proof.
  induction fuel as [|f IH]; intros n Hn.
  - simpl in Hn. assert (n = 0) by lia. subst. reflexivity.
  - simpl. destruct (N.ltb_spec n 10) as [Hlt|Hge].
    + simpl. rewrite is_digit_digit_char by exact Hlt.
      unfold digit_char. f_equal. lia.
    + rewrite digits_aux_app, digits_value_snoc.
      * rewrite IH.
        -- simpl. f_equal. unfold digit_char. lia.
        -- apply half_bound; [exact Hge|].
           rewrite Nat2N.inj_succ, N.pow_succ_r' in Hn. exact Hn.
      * apply is_digit_digit_char. apply N.mod_lt. lia.
Qed.

Lemma log2_fuel n : n < 2 ^ N.of_nat (S (N.to_nat (N.log2 n))).
Proof.
  rewrite Nat2N.inj_succ, N2Nat.id.
  destruct (N.eq_dec n 0) as [->|Hn]; [reflexivity|].
  apply N.log2_spec. lia.
Qed.

Lemma str_of_N_value n : digits_value 0 (str_of_N n) = Some n.
Proof. apply digits_aux_value, log2_fuel. Qed.

Lemma digits_value_all a s n :
  digits_value a s = Some n -> forallb is_digit s = true.
Proof.
  revert a. induction s as [|c s IH]; intros a; simpl; [reflexivity|].
  destruct (is_digit c); [apply IH | discriminate].
Qed.

Lemma str_of_N_digits n : forallb is_digit (str_of_N n) = true.
Proof. exact (digits_value_all _ _ _ (str_of_N_value n)). Qed.

(** The first digit of a positive number is not a zero. *)
Lemma digits_aux_head fuel : forall n,
  0 < n -> n < 2 ^ N.of_nat fuel ->
  exists c ds, digits_aux fuel n [] = c :: ds /\ is_digit c = true /\ c <> 48.
Proof.
  induction fuel as [|f IH]; intros n Hpos Hn.
  - simpl in Hn. lia.
  - simpl. destruct (N.ltb_spec n 10) as [Hlt|Hge].
    + exists (digit_char n), []. split; [reflexivity|].
      split; [apply is_digit_digit_char; exact Hlt | unfold digit_char; lia].
    + rewrite digits_aux_app.
      destruct (IH (n / 10)) as (c & ds & -> & Hc & Hz).
      * apply N.div_str_pos. lia.
      * apply half_bound; [exact Hge|].
        rewrite Nat2N.inj_succ, N.pow_succ_r' in Hn. exact Hn.
      * exists c, (ds ++ [digit_char (n mod 10)]). auto.
Qed.

Lemma str_of_N_head n :
  0 < n ->
  exists c ds, str_of_N n = c :: ds /\ is_digit c = true /\ c <> 48.
Proof. intros H. apply digits_aux_head; [exact H | apply log2_fuel]. Qed.

Lemma str_of_N_nonempty n : str_of_N n <> [].
Proof.
  destruct (N.eq_dec n 0) as [->|Hn]; [discriminate|].
  destruct (str_of_N_head n) as (c & ds & -> & _); [lia | discriminate].
Qed.

(** ** Stripping *)

Lemma strip_by_ends {A} (sp : A -> bool) (s : list A) :
  (forall c, head s = Some c -> sp c = false) ->
  (forall c, head (rev s) = Some c -> sp c = false) ->
  strip_by sp s = s.
Proof.
  intros Hh Hl. unfold strip_by.
  destruct s as [|c s]; [reflexivity|].
  assert (E1 : lstrip_by sp (c :: s) = c :: s)
    by (simpl; rewrite (Hh c eq_refl); reflexivity).
  rewrite E1.
  destruct (rev (c :: s)) as [|d t] eqn:Er.
  - apply (f_equal (@length A)) in Er.
    rewrite length_rev in Er. discriminate.
  - simpl. rewrite (Hl d eq_refl). rewrite <- Er. apply rev_involutive.
Qed.

Lemma is_digit_not_space c : is_digit c = true -> is_space c = false.
Proof.
  rewrite is_digit_range. intros H. unfold is_space.
  apply orb_false_iff; split; [apply N.eqb_neq; lia|].
  apply andb_false_iff; right. apply N.leb_gt. lia.
Qed.

Lemma forallb_head {A} (f : A -> bool) s c :
  forallb f s = true -> head s = Some c -> f c = true.
Proof.
  destruct s as [|x s]; simpl; [discriminate|].
  intros H [= ->]. apply andb_true_iff in H. tauto.
Qed.

Lemma forallb_rev {A} (f : A -> bool) s :
  forallb f s = true -> forallb f (rev s) = true.
Proof.
  rewrite !forallb_forall. intros H x Hx. apply H, in_rev, Hx.
Qed.

Lemma strip_digits s : forallb is_digit s = true -> strip s = s.
Proof.
  intros H. apply strip_by_ends; intros c Hc; apply is_digit_not_space.
  - exact (forallb_head _ _ _ H Hc).
  - exact (forallb_head _ _ _ (forallb_rev _ _ H) Hc).
Qed.

(** [int(text)] on a string of decimal digits. *)
Lemma int_of_text_digits s n :
  unsigned_of_text s = Some n -> int_of_text s = Some (Z.of_N n).
Proof.
  intros H. unfold int_of_text.
  assert (Hd : forallb is_digit s = true).
  { destruct s; [discriminate|]. exact (digits_value_all _ _ _ H). }
  rewrite strip_digits by exact Hd.
  destruct s as [|c r]; [discriminate|].
  simpl in Hd. apply andb_true_iff in Hd. destruct Hd as [Hc _].
  apply is_digit_range in Hc.
  destruct (N.eqb_spec c 45); [lia|].
  destruct (N.eqb_spec c 43); [lia|].
  rewrite H. reflexivity.
Qed.

Lemma unsigned_of_text_str_of_N n : unsigned_of_text (str_of_N n) = Some n.
Proof.
  unfold unsigned_of_text.
  destruct (str_of_N n) eqn:E; [exact (False_ind _ (str_of_N_nonempty n E))|].
  rewrite <- E. apply str_of_N_value.
Qed.

(** [int(str(z)) == z] *)
Lemma int_of_text_str_of_Z z : int_of_text (str_of_Z z) = Some z.
Proof.
  unfold str_of_Z. destruct (Z.ltb_spec z 0) as [Hneg|Hpos].
  - unfold int_of_text.
    assert (E : strip (45 :: str_of_N (Z.abs_N z)) = 45 :: str_of_N (Z.abs_N z)).
    { apply strip_by_ends.
      - intros c [= <-]. reflexivity.
      - intros c Hc. simpl in Hc.
        destruct (rev (str_of_N (Z.abs_N z))) as [|d t] eqn:Er.
        + apply (f_equal (@length N)) in Er. rewrite length_rev in Er.
          destruct (str_of_N (Z.abs_N z)) eqn:E0;
            [exact (False_ind _ (str_of_N_nonempty _ E0)) | discriminate].
        + simpl in Hc. injection Hc as <-. apply is_digit_not_space.
          apply (forallb_head _ (rev (str_of_N (Z.abs_N z)))).
          * apply forallb_rev, str_of_N_digits.
          * rewrite Er. reflexivity. }
    rewrite E. simpl. rewrite unsigned_of_text_str_of_N. simpl.
    f_equal. lia.
  - rewrite (int_of_text_digits _ _ (unsigned_of_text_str_of_N _)).
    f_equal. lia.
Qed.

(** ** The text [json.dumps] writes is ASCII *)

Lemma forallb_app_true {A} (f : A -> bool) a b :
  forallb f a = true -> forallb f b = true -> forallb f (a ++ b) = true.
Proof. intros Ha Hb. rewrite forallb_app, Ha, Hb. reflexivity. Qed.

Lemma is_ascii_lt c : is_ascii c = true <-> c < 128.
Proof. unfold is_ascii. apply N.ltb_lt. Qed.

Lemma hex_digit_ascii d : d < 16 -> is_ascii (hex_digit d) = true.
Proof.
  intros H. apply is_ascii_lt. unfold hex_digit.
  destruct (N.ltb_spec d 10); lia.
Qed.

Lemma uescape_ascii n : forallb is_ascii (uescape n) = true.
Proof.
  unfold uescape, hex4. cbn [forallb].
  rewrite !hex_digit_ascii by (apply N.mod_lt; lia). reflexivity.
Qed.

Lemma escape_char_ascii c : forallb is_ascii (escape_char c) = true.
Proof.
  unfold escape_char.
  repeat match goal with
         | |- context [if ?b =? ?k then _ else _] =>
             destruct (b =? k); [reflexivity|]
         end.
  destruct ((32 <=? c) && (c <=? 126)) eqn:Hp.
  - apply andb_true_iff in Hp. destruct Hp as [_ H].
    apply N.leb_le in H. cbn [forallb].
    rewrite (proj2 (is_ascii_lt c)) by lia. reflexivity.
  - destruct (c <? 0x10000).
    + apply uescape_ascii.
    + apply forallb_app_true; apply uescape_ascii.
Qed.

Lemma flat_map_ascii s : forallb is_ascii (flat_map escape_char s) = true.
Proof.
  induction s as [|c s IH]; [reflexivity|].
  cbn [flat_map]. apply forallb_app_true; [apply escape_char_ascii | exact IH].
Qed.

Lemma encode_basestring_ascii_ascii s :
  forallb is_ascii (encode_basestring_ascii s) = true.
Proof.
  unfold encode_basestring_ascii. cbn [forallb].
  rewrite forallb_app_true; [reflexivity | apply flat_map_ascii | reflexivity].
Qed.

Lemma digits_ascii s : forallb is_digit s = true -> forallb is_ascii s = true.
Proof.
  rewrite !forallb_forall. intros H c Hc.
  apply is_ascii_lt. specialize (H c Hc). apply is_digit_range in H. lia.
Qed.

Lemma str_of_Z_ascii z : forallb is_ascii (str_of_Z z) = true.
Proof.
  unfold str_of_Z. destruct (z <? 0)%Z; cbn [forallb];
    rewrite digits_ascii by apply str_of_N_digits; reflexivity.
Qed.

Lemma join_ascii sep parts :
  forallb is_ascii sep = true ->
  Forall (fun p => forallb is_ascii p = true) parts ->
  forallb is_ascii (join sep parts) = true.
Proof.
  intros Hsep H. induction H as [|p ps Hp Hps IH]; [reflexivity|].
  cbn [join]. destruct ps as [|q qs]; [exact Hp|].
  apply forallb_app_true; [exact Hp|].
  apply forallb_app_true; [exact Hsep | exact IH].
Qed.

Lemma json_dumps_ascii v : forallb is_ascii (json_dumps v) = true.
Proof.
  induction v as [ | [|] | n | s | l IH | d IH ] using value_ind;
    try reflexivity.
  - apply str_of_Z_ascii.
  - apply encode_basestring_ascii_ascii.
  - cbn [json_dumps forallb].
    rewrite forallb_app_true; [reflexivity | | reflexivity].
    apply join_ascii; [reflexivity|].
    apply Forall_map. exact IH.
  - cbn [json_dumps forallb].
    rewrite forallb_app_true; [reflexivity | | reflexivity].
    apply join_ascii; [reflexivity|].
    apply Forall_map. eapply Forall_impl; [exact IH|].
    intros [k v] Hv. cbn [fst snd] in *.
    apply forallb_app_true; [apply encode_basestring_ascii_ascii|].
    apply forallb_app_true; [reflexivity | exact Hv].
Qed.

(** ASCII text takes one byte a character. *)
Lemma utf8_encode_ascii s :
  forallb is_ascii s = true -> utf8_encode s = Some (map byte_of_N s).
Proof.
  induction s as [|c s IH]; [reflexivity|].
  cbn [forallb]. intros H. apply andb_true_iff in H. destruct H as [Hc Hs].
  cbn [utf8_encode map]. rewrite (IH Hs).
  unfold utf8_char. apply is_ascii_lt in Hc.
  destruct (N.ltb_spec c 0x80); [reflexivity | lia].
Qed.

Lemma format_request_ascii payload :
  forallb is_ascii (format_request payload) = true.
Proof.
  unfold format_request.
  apply forallb_app_true; [reflexivity|].
  apply forallb_app_true; [apply str_of_Z_ascii|].
  apply forallb_app_true; [reflexivity|].
  apply forallb_app_true; [reflexivity | apply json_dumps_ascii].
Qed.

Lemma encode_frame payload :
  encode payload = Some (frame (map byte_of_N (json_dumps payload))).
Proof.
  unfold encode. rewrite utf8_encode_ascii by apply format_request_ascii.
  unfold format_request, frame. rewrite !map_app, length_map. reflexivity.
Qed.

(** C5. For every payload, [format_request] writes
    ["Content-Length: {n}\r\n\r\n{body}"], where [body] is the text
    [json.dumps] gives and [n] is the number of bytes this body takes on the
    wire once [send_payload] has encoded the message as UTF-8; the bytes
    sent are the header bytes followed by those of the body. *)
Theorem format_request_byte_length (payload : value) :
  exists body : bytes,
    utf8_encode (json_dumps payload) = Some body
    /\ format_request payload
       = lit "Content-Length: " ++ str_of_Z (Z.of_nat (length body))
           ++ CRLF ++ CRLF ++ json_dumps payload
    /\ encode payload = Some (frame body).
Proof.
  exists (map byte_of_N (json_dumps payload)).
  split; [apply utf8_encode_ascii, json_dumps_ascii|].
  rewrite length_map. split; [reflexivity | apply encode_frame].
Qed.

(** ** Sending *)

Lemma sent_ids_app a b : sent_ids (a ++ b) = sent_ids a ++ sent_ids b.
Proof.
  induction a as [|e a IH]; [reflexivity|].
  destruct e as [[] | | | | | | | | | | | ]; cbn [sent_ids app];
    rewrite IH; reflexivity.
Qed.

Lemma calls_app a b : calls (a ++ b) = calls a ++ calls b.
Proof.
  induction a as [|e a IH]; [reflexivity|].
  destruct e; cbn [calls app]; rewrite IH; reflexivity.
Qed.

(** With a process in hand [send_payload] returns: the message went out, or
    the broken pipe was logged. *)
Lemma send_payload_returns payload c p :
  process c = Some p ->
  exists evs,
    send_payload payload c = (Ok tt, with_trace (trace c ++ evs) c)
    /\ sent_ids evs = [] /\ calls evs = [].
Proof.
  intros Hp.
  unfold send_payload, try_except, bind, self_process, of_option.
  rewrite Hp.
  fold (encode payload).
  rewrite encode_frame.
  unfold ret. destruct (stdin_open p).
  - eexists [Wrote _; Flushed]. split; [|split; reflexivity].
    unfold emit, with_trace. cbn. rewrite <- app_assoc. reflexivity.
  - exists [Printf (ClientDied BrokenPipeError)].
    split; [|split; reflexivity]. reflexivity.
Qed.

(** ** Steps that leave the client's own state alone *)

Lemma steady_refl c : steady c c.
Proof.
  repeat split. exists []. rewrite app_nil_r. split; reflexivity.
Qed.

Lemma steady_trans c1 c2 c3 : steady c1 c2 -> steady c2 c3 -> steady c1 c3.
Proof.
  intros (Hp & Hr & Hh & e1 & Ht & He) (Hp' & Hr' & Hh' & e2 & Ht' & He').
  repeat split; try congruence.
  exists (e1 ++ e2). rewrite Ht', Ht, <- app_assoc, sent_ids_app, He, He'.
  split; reflexivity.
Qed.

Lemma Steady_ret {A} (a : A) : Steady (ret a).
Proof. intros c. apply steady_refl. Qed.

Lemma Steady_raise {A} e : Steady (@raise A e).
Proof. intros c. apply steady_refl. Qed.

Lemma Steady_lift {A} (r : res A) : Steady (lift r).
Proof. intros c. apply steady_refl. Qed.

Lemma Steady_of_option {A} (o : option A) e : Steady (of_option o e).
Proof. destruct o; [apply Steady_ret | apply Steady_raise]. Qed.

Lemma Steady_bind {A B} (m : M A) (k : A -> M B) :
  Steady m -> (forall a, Steady (k a)) -> Steady (bind m k).
Proof.
  intros Hm Hk c. unfold bind. specialize (Hm c).
  destruct (m c) as [[a|e] c']; cbn [snd] in *; [|exact Hm].
  eapply steady_trans; [exact Hm | apply Hk].
Qed.

Lemma Steady_try {A} (m : M A) cls h :
  Steady m -> (forall e, Steady (h e)) -> Steady (try_except m cls h).
Proof.
  intros Hm Hh c. unfold try_except. specialize (Hm c).
  destruct (m c) as [[a|e] c']; cbn [snd] in *; [exact Hm|].
  destruct (cls e); [|exact Hm].
  eapply steady_trans; [exact Hm | apply Hh].
Qed.

Lemma Steady_emit ev : sent_ids [ev] = [] -> Steady (emit ev).
Proof.
  intros H c. repeat split. exists [ev]. split; [reflexivity | exact H].
Qed.

Lemma Steady_self_process : Steady self_process.
Proof. intros c. unfold self_process. destruct (process c); apply steady_refl. Qed.

Lemma Steady_handlers_get (k : Z) :
  Steady (fun c => of_option (handlers c !! k) KeyError c).
Proof. intros c. apply Steady_of_option. Qed.

Lemma Steady_if {A} (b : bool) (m1 m2 : M A) :
  Steady m1 -> Steady m2 -> Steady (if b then m1 else m2).
Proof. destruct b; auto. Qed.

Create HintDb steady.
#[local] Hint Resolve Steady_ret Steady_raise Steady_lift Steady_of_option
  Steady_self_process Steady_handlers_get : steady.

Ltac steady :=
  repeat first
    [ apply Steady_bind; [|intros ?]
    | apply Steady_try; [|intros ?]
    | apply Steady_if
    | apply Steady_emit; reflexivity
    | solve [auto with steady]
    | match goal with
      | |- Steady (match ?x with _ => _ end) => destruct x
      end ].

Lemma Steady_ext E ev : sent_ids [ev] = [] -> Steady (ext E ev).
Proof.
  intros H. unfold ext.
  apply Steady_bind; [apply Steady_emit, H | intros _; steady].
Qed.

Lemma Steady_global b : Steady (global b).
Proof. unfold global. steady. Qed.

#[local] Hint Resolve Steady_global : steady.

Lemma Steady_response_handler E d : Steady (response_handler E d).
Proof. unfold response_handler, debug. steady. Qed.

Lemma Steady_request_handler E d : Steady (request_handler E d).
Proof.
  unfold request_handler, debug. steady.
Qed.

Lemma Steady_notification_handler E d : Steady (notification_handler E d).
Proof.
  unfold notification_handler, debug. steady.
Qed.

Lemma Steady_dispatch E d : Steady (dispatch E d).
Proof.
  pose proof (Steady_request_handler E d).
  pose proof (Steady_notification_handler E d).
  pose proof (Steady_response_handler E d).
  unfold dispatch, debug. steady; assumption.
Qed.

(** Handling a payload returns, whatever the payload, and leaves the
    process, the counter and the table as they were. *)
Lemma handle_returns E d c :
  fst (handle E d c) = Ok tt /\ steady c (snd (handle E d c)).
Proof.
  split.
  - unfold handle, try_except.
    destruct (dispatch E d c) as [[[]|e] c']; reflexivity.
  - apply (Steady_try (dispatch E d)); [apply Steady_dispatch|].
    intros e. apply Steady_emit. reflexivity.
Qed.

(** A request sent: the counter goes up by one, the new value is the id, the
    handler is filed under it. *)
Lemma send_request_spec r h c p :
  process c = Some p ->
  exists evs,
    send_request r h c
    = (Ok tt,
       {| process := Some p;
          request_id := request_id c + 1;
          handlers := match h with
                      | Some f => <[(request_id c + 1)%Z := f]> (handlers c)
                      | None => handlers c
                      end;
          trace := trace c
                     ++ Debug (RequestSent (request_id c + 1) (method r)) :: evs |})
    /\ sent_ids evs = [] /\ calls evs = [].
Proof.
  intros Hp. unfold send_request, bind, debug, emit, ret.
  destruct h as [f|]; cbn;
    match goal with
    | |- context [send_payload ?x ?y] =>
        destruct (send_payload_returns x y p Hp) as (evs & Hs & Hi & Hc);
        exists evs; rewrite Hs
    end;
    (split; [|split; assumption]);
    unfold with_trace; cbn; rewrite Hp, <- app_assoc; reflexivity.
Qed.

Lemma send_notification_spec r c p :
  process c = Some p ->
  fst (send_notification r c) = Ok tt /\ steady c (snd (send_notification r c)).
Proof.
  intros Hp. unfold send_notification, bind, debug, emit.
  match goal with
  | |- context [send_payload ?x ?y] =>
      destruct (send_payload_returns x y p Hp) as (evs & Hs & Hi & Hc);
      rewrite Hs
  end.
  split; [reflexivity|]. cbn. repeat split.
  exists (Debug (NotifySent (method r)) :: evs).
  rewrite <- app_assoc. split; [reflexivity | exact Hi].
Qed.

Lemma ids_shift (k : Z) n :
  map (fun i => (k + 1 + Z.of_nat i)%Z) (seq 1 n)
  = map (fun i => (k + Z.of_nat i)%Z) (seq 2 n).
Proof.
  rewrite <- (seq_shift n 1), map_map. apply map_ext. intros i. lia.
Qed.

(** Whatever the client sends and handles in between, the [k]-th request
    gets the counter's start plus [k]. *)
Lemma run_ops_ids E ops : forall c p,
  process c = Some p ->
  fst (run_ops E ops c) = Ok tt
  /\ process (snd (run_ops E ops c)) = Some p
  /\ request_id (snd (run_ops E ops c)) = (request_id c + Z.of_nat (sends ops))%Z
  /\ sent_ids (trace (snd (run_ops E ops c)))
     = sent_ids (trace c)
         ++ map (fun i => (request_id c + Z.of_nat i)%Z) (seq 1 (sends ops)).
Proof.
  induction ops as [|[r h|r|d] ops IH]; intros c p Hp.
  - cbn. rewrite Z.add_0_r, app_nil_r. auto.
  - cbn [run_ops sends]. unfold bind.
    destruct (send_request_spec r h c p Hp) as (evs & -> & Hi & _).
    match goal with |- context [run_ops E ops ?c1] =>
      destruct (IH c1 p eq_refl) as (H1 & H2 & H3 & H4) end.
    cbn [request_id trace] in H3, H4.
    rewrite H1, H2, H3, H4.
    split; [reflexivity|]. split; [reflexivity|]. split; [lia|].
    rewrite sent_ids_app. cbn [sent_ids]. rewrite Hi, <- app_assoc.
    cbn [app seq map]. rewrite ids_shift. reflexivity.
  - cbn [run_ops sends]. unfold bind.
    destruct (send_notification_spec r c p Hp) as (Hf & Hq & Hr & Hh & evs & Ht & Hi).
    destruct (send_notification r c) as [[[]|e] c1]; [|discriminate].
    cbn [snd] in *. rewrite Hp in Hq.
    destruct (IH c1 p Hq) as (H1 & H2 & H3 & H4).
    rewrite H1, H2, H3, H4, Hr, Ht, sent_ids_app, Hi, app_nil_r. auto.
  - cbn [run_ops sends]. unfold bind.
    destruct (handle_returns E d c) as (Hf & Hq & Hr & Hh & evs & Ht & Hi).
    destruct (handle E d c) as [[[]|e] c1]; [|discriminate].
    cbn [snd] in *. rewrite Hp in Hq.
    destruct (IH c1 p Hq) as (H1 & H2 & H3 & H4).
    rewrite H1, H2, H3, H4, Hr, Ht, sent_ids_app, Hi, app_nil_r. auto.
Qed.

Lemma send_all_run_ops E reqs :
  send_all reqs = run_ops E (map (fun rh => Send (fst rh) (snd rh)) reqs).
Proof.
  induction reqs as [|[r h] reqs IH]; [reflexivity|].
  cbn [send_all map run_ops fst snd]. rewrite IH. reflexivity.
Qed.

Lemma sends_map_Send reqs :
  sends (map (fun rh => Send (fst rh) (snd rh)) reqs) = length reqs.
Proof. induction reqs as [|x reqs IH]; cbn; [|rewrite IH]; reflexivity. Qed.

Lemma ids_increasing n : forall a,
  StronglySorted Z.lt (map Z.of_nat (seq a n)).
Proof.
  induction n as [|n IH]; intros a; cbn; constructor; [apply IH|].
  apply List.Forall_forall. intros z Hz.
  apply in_map_iff in Hz. destruct Hz as (i & <- & Hi).
  apply in_seq in Hi. lia.
Qed.

(** C6. The requests sent through one client get the ids 1, 2, ..., N in
    the order of the calls: starting at 1, strictly increasing, without a
    repeat. This holds for N calls of [send_request] in a row on a new
    client, and still when notifications are sent and payloads of any kind
    are handled in between, so that no id is given twice while the client
    lives. *)
Theorem request_ids_count_up (E : environ) (p : process_t) :
  (forall reqs : list (Request * option handler),
     let done := send_all reqs (new_client p) in
     fst done = Ok tt
     /\ sent_ids (trace (snd done)) = map Z.of_nat (seq 1 (length reqs))
     /\ request_id (snd done) = Z.of_nat (length reqs))
  /\ (forall ops : list op,
        let done := run_ops E ops (new_client p) in
        let ids := sent_ids (trace (snd done)) in
        fst done = Ok tt
        /\ ids = map Z.of_nat (seq 1 (sends ops))
        /\ StronglySorted Z.lt ids
        /\ NoDup ids).
Proof.
  assert (G : forall ops,
             fst (run_ops E ops (new_client p)) = Ok tt
             /\ sent_ids (trace (snd (run_ops E ops (new_client p))))
                = map Z.of_nat (seq 1 (sends ops))
             /\ request_id (snd (run_ops E ops (new_client p)))
                = Z.of_nat (sends ops)).
  { intros ops.
    destruct (run_ops_ids E ops (new_client p) p eq_refl) as (H1 & _ & H3 & H4).
    cbn in H3, H4. rewrite H1, H3, H4. auto. }
  split.
  - intros reqs. cbn zeta. rewrite (send_all_run_ops E).
    destruct (G (map (fun rh => Send (fst rh) (snd rh)) reqs)) as (H1 & H2 & H3).
    rewrite sends_map_Send in H2, H3. auto.
  - intros ops. cbn zeta. destruct (G ops) as (H1 & H2 & _).
    rewrite H2. repeat split; [exact H1 | apply ids_increasing |].
    apply NoDup_fmap_2; [intros a b; lia | apply NoDup_seq].
Qed.

(** ** Responses *)

(** A response whose id is filed: the handler is called with the result;
    if it raises, that is logged twice and goes no further. *)
Lemma handle_response_found E d c n h :
  dict_has (lit "error") d = false ->
  dict_has (lit "method") d = false ->
  dict_has (lit "id") d = true ->
  py_int (dict_get (lit "id") d) = Ok n ->
  handlers c !! n = Some h ->
  handle E d c
  = (Ok tt,
     with_trace
       (trace c
          ++ Called h (dict_get (lit "result") d)
          :: match call E h (dict_get (lit "result") d) with
             | None => []
             | Some e => [Debug (ResponseFailed n); Printf (HandlingFailed e)]
             end) c).
Proof.
  intros He Hm Hi Hn Hh.
  unfold handle, dispatch. rewrite He, Hm, Hi.
  unfold response_handler. rewrite Hn.
  unfold try_except, bind, of_option. rewrite Hh.
  unfold truth, emit, ret, raise, debug, printf, emit, bind.
  destruct (call E h (dict_get (lit "result") d)) as [e|]; cbn;
    unfold with_trace; cbn; rewrite <- ?app_assoc; reflexivity.
Qed.

(** A response whose id is not filed: KeyError, logged twice, no call. *)
Lemma handle_response_missing E d c n :
  dict_has (lit "error") d = false ->
  dict_has (lit "method") d = false ->
  dict_has (lit "id") d = true ->
  py_int (dict_get (lit "id") d) = Ok n ->
  handlers c !! n = None ->
  handle E d c
  = (Ok tt,
     with_trace
       (trace c ++ [Debug (ResponseFailed n); Printf (HandlingFailed KeyError)])
       c).
Proof.
  intros He Hm Hi Hn Hh.
  unfold handle, dispatch. rewrite He, Hm, Hi.
  unfold response_handler. rewrite Hn.
  unfold try_except, bind, of_option. rewrite Hh.
  unfold raise, debug, printf, emit, bind. cbn.
  unfold with_trace; cbn; rewrite <- ?app_assoc; reflexivity.
Qed.

(** A payload with an [error] field: the error is logged and goes to the
    status message; no handler is called. *)
Lemma handle_error E d c :
  dict_has (lit "error") d = true ->
  exists evs,
    handle E d c
    = (Ok tt,
       with_trace
         (trace c ++ Debug (GotError (dict_get (lit "error") d)) :: evs) c)
    /\ calls evs = [].
Proof.
  intros He. unfold handle, dispatch. rewrite He.
  unfold try_except, bind, debug, printf, emit, global, ext, lift.
  destruct (has_sublime E); cbn.
  - destruct (py_get (dict_get (lit "error") d) (lit "message")) as [m|e]; cbn.
    + destruct (sink E (StatusMessage m)) as [e|]; cbn.
      * exists [StatusMessage m; Printf (HandlingFailed e)].
        split; [|reflexivity].
        unfold with_trace; cbn; rewrite <- !app_assoc; reflexivity.
      * exists [StatusMessage m]. split; [|reflexivity].
        unfold with_trace; cbn; rewrite <- !app_assoc; reflexivity.
    + exists [Printf (HandlingFailed e)]. split; [|reflexivity].
      unfold with_trace; cbn; rewrite <- !app_assoc; reflexivity.
  - exists [Printf (HandlingFailed NameError)]. split; [|reflexivity].
    unfold with_trace; cbn; rewrite <- !app_assoc; reflexivity.
Qed.

(** ** Reading a framed message *)

Lemma to_N_byte_of_N n : n < 256 -> Byte.to_N (byte_of_N n) = n.
Proof.
  intros H. unfold byte_of_N. destruct (Byte.of_N n) as [b|] eqn:E.
  - apply Byte.to_of_N, E.
  - apply Byte.of_N_None_iff in E. lia.
Qed.

Lemma map_to_N_byte_of_N s :
  forallb is_ascii s = true -> map Byte.to_N (map byte_of_N s) = s.
Proof.
  induction s as [|c s IH]; [reflexivity|].
  cbn [forallb map]. intros H. apply andb_true_iff in H. destruct H as [Hc Hs].
  apply is_ascii_lt in Hc. rewrite to_N_byte_of_N by lia. rewrite IH by exact Hs.
  reflexivity.
Qed.

Lemma byte_eqb_refl b : Byte.eqb b b = true.
Proof. apply Byte.byte_dec_lb. reflexivity. Qed.

Lemma byte_of_N_not_LF c :
  c < 256 -> c <> 10 -> Byte.eqb (byte_of_N c) x0a = false.
Proof.
  intros Hc Hn. destruct (Byte.eqb (byte_of_N c) x0a) eqn:E; [|reflexivity].
  apply Byte.byte_dec_bl in E. apply (f_equal Byte.to_N) in E.
  rewrite to_N_byte_of_N in E by exact Hc. cbn in E. contradiction.
Qed.

Lemma take_line_app pre post :
  forallb (fun b => negb (Byte.eqb b x0a)) pre = true ->
  take_line (pre ++ x0a :: post) = (pre ++ [x0a], Some post).
Proof.
  induction pre as [|b pre IH]; cbn [forallb app take_line]; intros H.
  - reflexivity.
  - apply andb_true_iff in H. destruct H as [Hb Hp].
    apply negb_true_iff in Hb. rewrite Hb, (IH Hp). reflexivity.
Qed.

Lemma strip_by_tail2 {A} (sp : A -> bool) (h : list A) a b :
  sp a = true -> sp b = true ->
  (forall c, head h = Some c -> sp c = false) ->
  (forall c, head (rev h) = Some c -> sp c = false) ->
  strip_by sp (h ++ [a; b]) = h.
Proof.
  intros Ha Hb Hh Hl. unfold strip_by.
  destruct h as [|c h].
  - cbn. rewrite Ha, Hb. reflexivity.
  - assert (E1 : lstrip_by sp ((c :: h) ++ [a; b]) = (c :: h) ++ [a; b])
      by (cbn; rewrite (Hh c eq_refl); reflexivity).
    rewrite E1, rev_app_distr. cbn [rev app lstrip_by]. rewrite Hb, Ha.
    destruct (rev h ++ [c]) as [|x t] eqn:Er.
    + destruct (rev h); discriminate.
    + cbn [lstrip_by]. cbn [rev] in Hl. rewrite Er in Hl.
      rewrite (Hl x eq_refl), <- Er.
      rewrite rev_app_distr, rev_involutive. reflexivity.
Qed.

Lemma startswith_app (p s : bytes) : startswith Byte.eqb (p ++ s) p = true.
Proof.
  induction p as [|b p IH]; [destruct s; reflexivity|].
  cbn. rewrite byte_eqb_refl. exact IH.
Qed.

Lemma skipn_app_length {A} (p s : list A) : skipn (length p) (p ++ s) = s.
Proof. induction p as [|b p IH]; [reflexivity | exact IH]. Qed.

Lemma str_of_Z_of_nat n : str_of_Z (Z.of_nat n) = str_of_N (N.of_nat n).
Proof.
  unfold str_of_Z. destruct (Z.ltb_spec (Z.of_nat n) 0); [lia|].
  f_equal. lia.
Qed.

(** The header line of a frame, as the reader sees it after [strip]. *)
Lemma header_line_strip n :
  bstrip (ContentLengthHeader
            ++ map byte_of_N (str_of_N n) ++ [x0d; x0a])
  = ContentLengthHeader ++ map byte_of_N (str_of_N n).
Proof.
  unfold bstrip. rewrite app_assoc.
  apply strip_by_tail2; try reflexivity.
  - intros c [= <-]. reflexivity.
  - intros c. rewrite rev_app_distr, <- map_rev.
    pose proof (forallb_rev _ _ (str_of_N_digits n)) as Hd.
    destruct (rev (str_of_N n)) as [|d t] eqn:Er.
    + apply (f_equal (@length N)) in Er. rewrite length_rev in Er.
      destruct (str_of_N n) eqn:E0;
        [exact (False_ind _ (str_of_N_nonempty _ E0)) | discriminate].
    + cbn. intros [= <-]. cbn in Hd. apply andb_true_iff in Hd.
      destruct Hd as [Hd _]. pose proof (proj1 (is_digit_range d) Hd).
      rewrite to_N_byte_of_N by lia. apply is_digit_not_space, Hd.
Qed.

Lemma header_line_no_LF n :
  forallb (fun b => negb (Byte.eqb b x0a))
    (ContentLengthHeader ++ map byte_of_N (str_of_N n) ++ [x0d]) = true.
Proof.
  apply forallb_app_true; [reflexivity|].
  apply forallb_app_true; [|reflexivity].
  pose proof (str_of_N_digits n) as Hd. rewrite forallb_forall in Hd.
  apply forallb_forall. intros b Hb. apply in_map_iff in Hb.
  destruct Hb as (c & <- & Hc). specialize (Hd c Hc).
  apply is_digit_range in Hd.
  rewrite byte_of_N_not_LF by lia. reflexivity.
Qed.

Lemma header_line_value n :
  int_of_text (map Byte.to_N (map byte_of_N (str_of_N n))) = Some (Z.of_N n).
Proof.
  rewrite map_to_N_byte_of_N by (apply digits_ascii, str_of_N_digits).
  apply int_of_text_digits, unsigned_of_text_str_of_N.
Qed.

Lemma stdout_readline_line c p pre post :
  process c = Some p ->
  data (stdout p) = pre ++ x0a :: post ->
  forallb (fun b => negb (Byte.eqb b x0a)) pre = true ->
  stdout_readline c
  = (Ok (pre ++ [x0a]),
     with_process
       (Some (with_stdout {| data := post; at_end := at_end (stdout p) |} p)) c).
Proof.
  intros Hp Hd Hpre. unfold stdout_readline, bind, self_process.
  rewrite Hp. unfold chan_readline. rewrite Hd, (take_line_app _ _ Hpre).
  reflexivity.
Qed.

Lemma read_headers_frame k c p n after :
  process c = Some p ->
  data (stdout p)
  = ContentLengthHeader ++ map byte_of_N (str_of_N n)
      ++ [x0d; x0a; x0d; x0a] ++ after ->
  read_headers (S (S k)) 0 c
  = (Ok (Z.of_N n),
     with_process
       (Some (with_stdout {| data := after; at_end := at_end (stdout p) |} p)) c).
Proof.
  intros Hp Hd.
  assert (Hd' : data (stdout p)
                = (ContentLengthHeader ++ map byte_of_N (str_of_N n) ++ [x0d])
                    ++ x0a :: ([x0d; x0a] ++ after)).
  { rewrite Hd, <- !app_assoc. reflexivity. }
  cbn [read_headers]. unfold bind at 1.
  rewrite (stdout_readline_line c p _ _ Hp Hd' (header_line_no_LF n)).
  rewrite <- !app_assoc. cbn [app].
  change ([x0d; x0a]) with ([x0d; x0a] : bytes).
  rewrite header_line_strip, startswith_app, skipn_app_length, header_line_value.
  unfold of_option, bind at 1, ret at 1.
  assert (Hne : (length (ContentLengthHeader ++ map byte_of_N (str_of_N n)) =? 0)%nat = false)
    by reflexivity.
  rewrite Hne. cbn [negb].
  unfold bind at 1.
  erewrite (stdout_readline_line _ _ [x0d] after); [|reflexivity|reflexivity|reflexivity].
  reflexivity.
Qed.

Lemma chan_read_exact body rest e :
  chan_read (length body) {| data := body ++ rest; at_end := e |}
  = (Ok body, {| data := rest; at_end := e |}).
Proof.
  unfold chan_read. cbn [data at_end].
  rewrite length_app.
  destruct (Nat.leb_spec (length body) (length body + length rest)); [|lia].
  rewrite firstn_app, Nat.sub_diag, firstn_all, skipn_app_length.
  cbn. rewrite app_nil_r. reflexivity.
Qed.

Lemma stdout_read_exact c p body rest :
  process c = Some p ->
  data (stdout p) = body ++ rest ->
  stdout_read (length body) c = (Ok body, advanced rest p c).
Proof.
  intros Hp Hd. unfold stdout_read, bind, self_process. rewrite Hp.
  destruct (stdout p) as [dt e] eqn:Es. cbn [data] in Hd. subst dt.
  rewrite chan_read_exact. unfold advanced. rewrite Es. reflexivity.
Qed.

(** A framed message at the head of the channel: the reader takes exactly
    the frame and has the text of its body. *)
Lemma read_content_frame c p body rest :
  process c = Some p ->
  data (stdout p) = frame body ++ rest ->
  body <> [] ->
  read_content c
  = match utf8_decode body with
    | Some text => (Ok (Some text), advanced rest p c)
    | None => (Raise UnicodeDecodeError, advanced rest p c)
    end.
Proof.
  intros Hp Hd Hne. unfold read_content, bind at 1.
  assert (Hpend : exists k, pending c = S k).
  { unfold pending. rewrite Hp, Hd. unfold frame.
    rewrite !length_app. cbn. eexists. reflexivity. }
  destruct Hpend as (k & ->).
  rewrite (read_headers_frame k c p (N.of_nat (length body)) (body ++ rest) Hp).
  2:{ rewrite Hd. unfold frame. rewrite str_of_Z_of_nat, <- !app_assoc.
      reflexivity. }
  rewrite nat_N_Z.
  destruct (Z.ltb_spec 0 (Z.of_nat (length body))) as [_|Hle].
  2:{ destruct body; [contradiction | cbn in Hle; lia]. }
  rewrite Nat2Z.id. unfold bind at 1.
  erewrite (stdout_read_exact _ _ body rest); [|reflexivity|reflexivity].
  unfold bind, of_option, ret, raise.
  destruct (utf8_decode body); reflexivity.
Qed.

Lemma parse_content_dict text d c :
  json_loads text = Some (VDict d) ->
  parse_content text c
  = (Ok (Some d), with_trace (trace c ++ got_json text d) c).
Proof.
  intros Hl. unfold parse_content, try_except, bind, of_option, got_json.
  rewrite Hl. unfold ret, debug, emit.
  destruct (negb (is_str (dict_get (lit "method") d) (lit "window/logMessage"))).
  - reflexivity.
  - rewrite app_nil_r. destruct c; reflexivity.
Qed.

(** One turn of the reader on a framed message whose body is a JSON
    object: the frame is taken off the channel, the payload is handled, the
    loop goes on. *)
Lemma stdout_turn_message E c p body rest text d :
  process c = Some p ->
  data (stdout p) = frame body ++ rest ->
  body <> [] ->
  utf8_decode body = Some text ->
  json_loads text = Some (VDict d) ->
  stdout_turn E c
  = (Ok Next,
     snd (handle E d
            (with_trace (trace c ++ got_json text d) (advanced rest p c)))).
Proof.
  intros Hp Hd Hne Hu Hl. unfold stdout_turn, try_except. unfold bind at 1.
  rewrite (read_content_frame c p body rest Hp Hd Hne), Hu.
  unfold bind at 1. rewrite (parse_content_dict text d _ Hl).
  unfold bind. cbn [trace advanced with_process].
  match goal with |- context [handle E d ?x] =>
    pose proof (proj1 (handle_returns E d x)) as Hh;
    destruct (handle E d x) as [[[]|e] c2] end; [|discriminate].
  reflexivity.
Qed.

Lemma poll_alive c p n :
  process c = Some p -> alive p = S n ->
  poll_is_None c = (Ok true, with_process (Some (with_alive n p)) c).
Proof.
  intros Hp Ha. unfold poll_is_None, bind, self_process. rewrite Hp, Ha.
  reflexivity.
Qed.

(** The loop on such a message, the subordinate being alive: one turn, and
    the loop again on what follows. *)
Lemma stdout_loop_message E f c p n body rest text d :
  process c = Some p ->
  alive p = S n ->
  data (stdout p) = frame body ++ rest ->
  body <> [] ->
  utf8_decode body = Some text ->
  json_loads text = Some (VDict d) ->
  stdout_loop E (S f) c
  = stdout_loop E f
      (snd (handle E d
              (with_trace (trace c ++ got_json text d)
                 (advanced rest (with_alive n p) c)))).
Proof.
  intros Hp Ha Hd Hne Hu Hl. cbn [stdout_loop]. unfold bind at 1.
  rewrite (poll_alive c p n Hp Ha). unfold bind at 1.
  erewrite (stdout_turn_message E _ (with_alive n p) body rest text d);
    [reflexivity | reflexivity | exact Hd | exact Hne | exact Hu | exact Hl].
Qed.

(** ** The table of handlers after a response *)

(** C4, as stated, fails: one request sent with id 1, the reader fed
    [Content-Length: 20] and the body [{"id":1,"result":{}}]. The handler
    is called once with [{}], and the table is not empty afterwards: it
    still holds the handler under 1. *)
Lemma response_entry_not_removed :
  let c := snd (read_stdout plain
                  (initialized
                     (frame (ascii_bytes (jlit "{'id':1,'result':{}}"))) 3)) in
  calls (trace c) = [(7%nat, VDict [])]
  /\ handlers c !! 1%Z = Some 7%nat
  /\ handlers c <> ∅.
Proof.
  cbn zeta.
  assert (H : handlers
                (snd (read_stdout plain
                        (initialized
                           (frame (ascii_bytes (jlit "{'id':1,'result':{}}"))) 3)))
              !! 1%Z = Some 7%nat) by (vm_compute; reflexivity).
  split; [vm_compute; reflexivity|]. split; [exact H|].
  intros He. rewrite He in H. discriminate H.
Qed.

(** C4, amended. When a response arrives for an id that is filed, handling
    it calls the handler once, with the result, and leaves the table as it
    was: the entry of that id stays. *)
Theorem response_keeps_entry (E : environ) (c : client)
    (d : list (pystr * value)) (n : Z) (h : handler) :
  dict_has (lit "error") d = false ->
  dict_has (lit "method") d = false ->
  dict_has (lit "id") d = true ->
  py_int (dict_get (lit "id") d) = Ok n ->
  handlers c !! n = Some h ->
  let after := handle E d c in
  fst after = Ok tt
  /\ calls (trace (snd after))
     = calls (trace c) ++ [(h, dict_get (lit "result") d)]
  /\ handlers (snd after) = handlers c
  /\ handlers (snd after) !! n = Some h.
Proof.
  intros He Hm Hi Hn Hh. cbn zeta.
  rewrite (handle_response_found E d c n h He Hm Hi Hn Hh).
  cbn [fst snd trace handlers with_trace].
  split; [reflexivity|]. split; [|split; [reflexivity | exact Hh]].
  rewrite calls_app. cbn [calls].
  destruct (call E h (dict_get (lit "result") d)); reflexivity.
Qed.

Lemma response_keeps_entry_witness :
  let after := handle plain (response (VInt 1) (VDict [])) (initialized [] 1) in
  fst after = Ok tt
  /\ calls (trace (snd after))
     = calls (trace (initialized [] 1)) ++ [(7%nat, VDict [])]
  /\ handlers (snd after) = handlers (initialized [] 1)
  /\ handlers (snd after) !! 1%Z = Some 7%nat.
Proof.
  apply (response_keeps_entry plain (initialized [] 1)
           (response (VInt 1) (VDict [])) 1%Z 7%nat);
    vm_compute; reflexivity.
Defined.

(** ** Responses that carry an error *)

(** C8, as stated, fails: handler 7 is filed under id 1 and the response
    [{id: 1, error: {message: "x"}}] is handled; the handler is not called. *)
Lemma error_response_not_handed_over :
  handlers (initialized [] 1) !! 1%Z = Some 7%nat
  /\ calls (trace (snd (handle plain error_response (initialized [] 1)))) = [].
Proof. split; vm_compute; reflexivity. Qed.

(** C8, amended. A response without an [error] field has the handler filed
    under its id called with the result payload. A payload with an [error]
    field takes the branch of line 98 first: the error object is logged,
    then meant for the status message, and no handler is called, whatever
    id the payload has. *)
Theorem error_goes_to_status_not_handler (E : environ) (c : client)
    (d : list (pystr * value)) :
  (forall n h,
      dict_has (lit "error") d = false ->
      dict_has (lit "method") d = false ->
      dict_has (lit "id") d = true ->
      py_int (dict_get (lit "id") d) = Ok n ->
      handlers c !! n = Some h ->
      calls (trace (snd (handle E d c)))
      = calls (trace c) ++ [(h, dict_get (lit "result") d)])
  /\ (dict_has (lit "error") d = true ->
      fst (handle E d c) = Ok tt
      /\ calls (trace (snd (handle E d c))) = calls (trace c)
      /\ In (Debug (GotError (dict_get (lit "error") d)))
            (trace (snd (handle E d c)))).
Proof.
  split.
  - intros n h He Hm Hi Hn Hh.
    rewrite (handle_response_found E d c n h He Hm Hi Hn Hh).
    cbn [snd trace with_trace]. rewrite calls_app. cbn [calls].
    destruct (call E h (dict_get (lit "result") d)); reflexivity.
  - intros He. destruct (handle_error E d c He) as (evs & -> & Hc).
    cbn [fst snd trace with_trace]. split; [reflexivity|].
    split.
    + rewrite calls_app. cbn [calls]. rewrite Hc. apply app_nil_r.
    + apply in_or_app. right. left. reflexivity.
Qed.

Lemma error_goes_to_status_not_handler_witness :
  calls (trace (snd (handle plain (response (VInt 1) (VDict [])) (initialized [] 1))))
  = calls (trace (initialized [] 1)) ++ [(7%nat, VDict [])]
  /\ (fst (handle plain error_response (initialized [] 1)) = Ok tt
      /\ calls (trace (snd (handle plain error_response (initialized [] 1))))
         = calls (trace (initialized [] 1))
      /\ In (Debug (GotError (dict_get (lit "error") error_response)))
            (trace (snd (handle plain error_response (initialized [] 1))))).
Proof.
  split.
  - apply (proj1 (error_goes_to_status_not_handler plain (initialized [] 1)
                    (response (VInt 1) (VDict []))) 1%Z 7%nat);
      vm_compute; reflexivity.
  - apply (proj2 (error_goes_to_status_not_handler plain (initialized [] 1)
                    error_response)).
    vm_compute. reflexivity.
Defined.

(** ** Ids that come back as strings *)

Lemma dict_lookup_has k d v :
  dict_lookup k d = Some v -> dict_has k d = true /\ dict_get k d = v.
Proof. intros H. unfold dict_has, dict_get. rewrite H. auto. Qed.

(** C10. A response whose [id] is a string of decimal digits (["3"], also
    ["003"]) has it turned into the integer it denotes before the table is
    looked up: the handler called is the one filed under that integer. *)
Theorem string_id_is_coerced (E : environ) (c : client)
    (d : list (pystr * value)) (s : pystr) (n : N) (h : handler) :
  dict_has (lit "error") d = false ->
  dict_has (lit "method") d = false ->
  dict_lookup (lit "id") d = Some (VStr s) ->
  unsigned_of_text s = Some n ->
  handlers c !! Z.of_N n = Some h ->
  py_int (VStr s) = Ok (Z.of_N n)
  /\ calls (trace (snd (handle E d c)))
     = calls (trace c) ++ [(h, dict_get (lit "result") d)].
Proof.
  intros He Hm Hl Hs Hh.
  destruct (dict_lookup_has _ _ _ Hl) as [Hi Hg].
  assert (Hn : py_int (VStr s) = Ok (Z.of_N n)).
  { unfold py_int. rewrite (int_of_text_digits s n Hs). reflexivity. }
  split; [exact Hn|].
  rewrite <- Hg in Hn.
  rewrite (handle_response_found E d c _ h He Hm Hi Hn Hh).
  cbn [snd trace with_trace]. rewrite calls_app. cbn [calls].
  destruct (call E h (dict_get (lit "result") d)); reflexivity.
Qed.

Lemma string_id_is_coerced_witness :
  py_int (VStr (lit "1")) = Ok 1%Z
  /\ calls (trace (snd (handle plain (response (VStr (lit "1")) (VList [VInt 5]))
                          (initialized [] 1))))
     = calls (trace (initialized [] 1)) ++ [(7%nat, VList [VInt 5])].
Proof.
  apply (string_id_is_coerced plain (initialized [] 1)
           (response (VStr (lit "1")) (VList [VInt 5])) (lit "1") 1%N 7%nat);
    vm_compute; reflexivity.
Defined.

(** ** Responses to requests that are not pending *)

Lemma calls_got_json text d : calls (got_json text d) = [].
Proof. unfold got_json. destruct (negb _); reflexivity. Qed.

(** C7. A response on the channel whose id has no entry in the table:
    the turn of the reader calls no handler, changes neither table nor
    counter, and the loop goes on with what follows the message on the
    channel. What is logged is, after the text of the payload: the failed
    lookup, by [response_handler] ("error handling response", with the id)
    and then by [read_stdout] (the KeyError it catches); or, if the response
    carries an [error] field, that error, the table not being looked
    up. *)
Theorem unknown_id_is_logged (E : environ) (f : nat) (c : client)
    (p : process_t) (k : nat) (body rest : bytes) (text : pystr)
    (d : list (pystr * value)) (n : Z) :
  process c = Some p ->
  alive p = S k ->
  data (stdout p) = frame body ++ rest ->
  body <> [] ->
  utf8_decode body = Some text ->
  json_loads text = Some (VDict d) ->
  dict_has (lit "method") d = false ->
  dict_has (lit "id") d = true ->
  py_int (dict_get (lit "id") d) = Ok n ->
  handlers c !! n = None ->
  exists c',
    stdout_loop E (S f) c = stdout_loop E f c'
    /\ process c' = Some (with_stdout {| data := rest; at_end := at_end (stdout p) |}
                            (with_alive k p))
    /\ handlers c' = handlers c
    /\ request_id c' = request_id c
    /\ calls (trace c') = calls (trace c)
    /\ if dict_has (lit "error") d
       then exists more,
              trace c'
              = trace c ++ got_json text d
                  ++ Debug (GotError (dict_get (lit "error") d)) :: more
              /\ calls more = []
       else trace c'
            = trace c ++ got_json text d
                ++ [Debug (ResponseFailed n); Printf (HandlingFailed KeyError)].
Proof.
  intros Hp Ha Hd Hne Hu Hl Hm Hi Hn Hh.
  pose proof (stdout_loop_message E f c p k body rest text d Hp Ha Hd Hne Hu Hl)
    as Hloop.
  destruct (dict_has (lit "error") d) eqn:He.
  - match type of Hloop with context [handle E d ?x] =>
      destruct (handle_error E d x He) as (evs & Hx & Hc) end.
    rewrite Hx in Hloop. cbn [snd] in Hloop.
    eexists. split; [exact Hloop|].
    cbn [snd trace with_trace advanced with_process process handlers request_id
         with_alive with_stdout stdout at_end].
    split; [reflexivity|]. split; [reflexivity|]. split; [reflexivity|].
    split.
    + rewrite !calls_app, calls_got_json. cbn [calls app].
      rewrite Hc, ?app_nil_r. reflexivity.
    + exists evs. split; [|exact Hc]. rewrite <- app_assoc. reflexivity.
  - match type of Hloop with context [handle E d ?x] =>
      rewrite (handle_response_missing E d x n He Hm Hi Hn Hh) in Hloop end.
    cbn [snd] in Hloop.
    eexists. split; [exact Hloop|].
    cbn [snd trace with_trace advanced with_process process handlers request_id
         with_alive with_stdout stdout at_end].
    split; [reflexivity|]. split; [reflexivity|]. split; [reflexivity|].
    split.
    + rewrite !calls_app, calls_got_json. cbn [calls app].
      rewrite ?app_nil_r. reflexivity.
    + rewrite <- app_assoc. reflexivity.
Qed.

Lemma unknown_id_is_logged_witness :
  exists c',
    stdout_loop plain 4 (initialized (frame stray_body ++ frame due_body) 3)
    = stdout_loop plain 3 c'
    /\ process c'
       = Some (with_stdout {| data := frame due_body; at_end := Eof |}
                 (with_alive 2 (subordinate (frame stray_body ++ frame due_body) 3)))
    /\ handlers c' = handlers (initialized (frame stray_body ++ frame due_body) 3)
    /\ request_id c'
       = request_id (initialized (frame stray_body ++ frame due_body) 3)
    /\ calls (trace c')
       = calls (trace (initialized (frame stray_body ++ frame due_body) 3))
    /\ trace c'
       = trace (initialized (frame stray_body ++ frame due_body) 3)
           ++ got_json (jlit "{'id':5,'result':{}}")
                [(lit "id", VInt 5); (lit "result", VDict [])]
           ++ [Debug (ResponseFailed 5); Printf (HandlingFailed KeyError)].
Proof.
  apply (unknown_id_is_logged plain 3
           (initialized (frame stray_body ++ frame due_body) 3)
           (subordinate (frame stray_body ++ frame due_body) 3) 2
           stray_body (frame due_body) (jlit "{'id':5,'result':{}}")
           [(lit "id", VInt 5); (lit "result", VDict [])] 5%Z);
    try (vm_compute; reflexivity).
  discriminate.
Defined.

(** The stray response is passed over and the one that follows reaches its
    handler. *)
Example stray_then_due :
  let done := read_stdout plain
                (initialized (frame stray_body ++ frame due_body) 3) in
  fst done = Ok tt /\ calls (trace (snd done)) = [(7%nat, VDict [])].
Proof. vm_compute. split; reflexivity. Qed.

(** ** A body that is not JSON *)

(** C3 does not hold of the code. A frame with the body [not json] is
    followed by a response to the pending request 1. [json.loads] raises
    ValueError, which neither [except IOError] catches: it leaves
    [read_stdout], nothing is logged about the payload, the response that
    follows stays on the channel and its handler is never called. *)
Theorem malformed_body_ends_reader (E : environ) :
  let done := read_stdout E (initialized (frame junk_body ++ frame due_body) 3) in
  fst done = Raise ValueError
  /\ calls (trace (snd done)) = []
  /\ option_map (fun p => data (stdout p)) (process (snd done))
     = Some (frame due_body)
  /\ trace (snd done) = trace (initialized (frame junk_body ++ frame due_body) 3).
Proof. vm_compute. repeat split; reflexivity. Qed.

(** ** A failed read and the other reader *)

(** C9 does not hold of the code. The read of the standard output fails:
    [read_stdout] logs, terminates the subordinate, sets [self.process] to
    [None] and returns. From then on the reader of the standard error, at
    its next look at [self.process] (the poll at the head of its loop, or
    the read in a turn), raises AttributeError: it neither runs on nor ends
    with its closing log entry. *)
Theorem read_failure_breaks_stderr_reader (E : environ) (err : channel)
    (open : bool) (n : nat) :
  let done := read_stdout E (new_client (failing err open n)) in
  fst done = Ok tt
  /\ trace (snd done) = [Printf (StdoutException IOError); Terminated]
  /\ process (snd done) = None
  /\ (forall f, stderr_loop E (S f) (snd done)
                = (Raise AttributeError, snd done))
  /\ read_stderr E (snd done) = (Raise AttributeError, snd done)
  /\ stderr_turn E (snd done) = (Raise AttributeError, snd done).
Proof.
  cbn zeta.
  assert (H : read_stdout E (new_client (failing err open n))
              = (Ok tt,
                 {| process := None; request_id := 0; handlers := ∅;
                    trace := [Printf (StdoutException IOError); Terminated] |}))
    by reflexivity.
  rewrite H. cbn [fst snd process trace].
  repeat split.
Qed.

(** ** Responses in any order *)

(** After the requests are sent, each handler is filed under the id of its
    request, and what was filed before is still there. *)
Lemma send_all_table reqs : forall c p,
  process c = Some p ->
  let r := send_all (with_handlers_all reqs) c in
  fst r = Ok tt
  /\ process (snd r) = Some p
  /\ calls (trace (snd r)) = calls (trace c)
  /\ (forall k, (k <= request_id c)%Z ->
                handlers (snd r) !! k = handlers c !! k)
  /\ (forall i h, map snd reqs !! i = Some h ->
                  handlers (snd r) !! (request_id c + Z.of_nat (S i))%Z = Some h).
Proof.
  induction reqs as [|[r h] reqs IH]; intros c p Hp; cbn zeta.
  - cbn. repeat split; auto. intros i h Hi. destruct i; discriminate.
  - cbn [with_handlers_all map send_all fst snd]. unfold bind.
    destruct (send_request_spec r (Some h) c p Hp) as (evs & -> & _ & Hc).
    match goal with |- context [send_all _ ?c1] =>
      destruct (IH c1 p eq_refl) as (H1 & H2 & H3 & H4 & H5) end.
    cbn [request_id trace handlers] in H3, H4, H5.
    fold (with_handlers_all reqs).
    split; [exact H1|]. split; [exact H2|]. split.
    { rewrite H3, calls_app. cbn [calls]. rewrite Hc. apply app_nil_r. }
    split.
    + intros k Hk. rewrite H4 by lia. apply lookup_insert_ne. lia.
    + intros [|i] h' Hi.
      * cbn in Hi. injection Hi as <-.
        rewrite H4 by lia. apply lookup_insert_eq.
      * cbn in Hi. rewrite <- (H5 i h' Hi). f_equal. lia.
Qed.

Lemma handle_all_answers E hs results order : forall c,
  (forall i, In i order -> (i < length hs)%nat) ->
  (forall i h, hs !! i = Some h -> handlers c !! Z.of_nat (S i) = Some h) ->
  calls (trace (snd (handle_all E (answers results order) c)))
  = calls (trace c)
      ++ map (fun i => (nth i hs O, nth i results VNone)) order.
Proof.
  induction order as [|i order IH]; intros c Hin Hf.
  - cbn. rewrite app_nil_r. reflexivity.
  - cbn [answers map handle_all]. unfold bind.
    assert (Hi : (i < length hs)%nat) by (apply Hin; left; reflexivity).
    destruct (lookup_lt_is_Some_2 hs i Hi) as [h Hh].
    rewrite (handle_response_found E
               (response (VInt (Z.of_nat (S i))) (nth i results VNone))
               c (Z.of_nat (S i)) h
               eq_refl eq_refl eq_refl eq_refl (Hf i h Hh)).
    fold (answers results order).
    rewrite IH.
    + cbn [trace with_trace]. rewrite calls_app. cbn [calls].
      rewrite (nth_lookup_Some hs i O h Hh).
      change (dict_get (lit "result")
                (response (VInt (Z.of_nat (S i))) (nth i results VNone)))
        with (nth i results VNone).
      rewrite <- app_assoc.
      destruct (call E h (nth i results VNone)); reflexivity.
    + intros j Hj. apply Hin. right. exact Hj.
    + exact Hf.
Qed.

Lemma map_nth_combine (hs : list handler) : forall results : list value,
  length results = length hs ->
  map (fun i => (nth i hs O, nth i results VNone)) (seq 0 (length hs))
  = combine hs results.
Proof.
  induction hs as [|h hs IH]; intros [|v results] Hlen; try discriminate.
  - reflexivity.
  - cbn [length seq map nth combine]. f_equal.
    rewrite <- seq_shift, map_map. cbn [nth]. apply IH.
    cbn in Hlen. lia.
Qed.

(** C1. N requests are sent, each with a handler, and their responses, each
    with the result of its own request, arrive in any order [order] (a
    permutation of the N requests). Then the handlers called are, in the
    order of arrival, the handlers of the requests responded to, each with
    the result of its own request; so the calls are the N pairs of a
    request's handler and its result, each pair once. *)
Theorem responses_in_any_order (E : environ) (p : process_t)
    (reqs : list (Request * handler)) (results : list value)
    (order : list nat) :
  length results = length reqs ->
  Permutation order (seq 0 (length reqs)) ->
  let sent := snd (send_all (with_handlers_all reqs) (new_client p)) in
  let done := snd (handle_all E (answers results order) sent) in
  calls (trace done)
  = map (fun i => (nth i (map snd reqs) O, nth i results VNone)) order
  /\ Permutation (calls (trace done)) (combine (map snd reqs) results).
Proof.
  intros Hlen Hperm. cbn zeta.
  destruct (send_all_table reqs (new_client p) p eq_refl)
    as (_ & _ & Hc & _ & Hf).
  cbn [request_id new_client trace calls] in Hc, Hf.
  assert (G : calls (trace (snd (handle_all E (answers results order)
                                   (snd (send_all (with_handlers_all reqs)
                                           (new_client p))))))
              = map (fun i => (nth i (map snd reqs) O, nth i results VNone)) order).
  { rewrite (handle_all_answers E (map snd reqs)).
    - rewrite Hc. reflexivity.
    - intros i Hi. rewrite length_map.
      apply (Permutation_in _ Hperm), in_seq in Hi. lia.
    - intros i h Hi. exact (Hf i h Hi). }
  split; [exact G|].
  rewrite G, <- (map_nth_combine (map snd reqs) results)
    by (rewrite length_map; exact Hlen).
  rewrite length_map. apply Permutation_map, Hperm.
Qed.

Lemma responses_in_any_order_witness :
  let sent := snd (send_all (with_handlers_all three_requests)
                     (new_client (subordinate [] 0))) in
  let done := snd (handle_all plain (answers three_results [2; 0; 1]%nat) sent) in
  calls (trace done)
  = map (fun i => (nth i (map snd three_requests) O, nth i three_results VNone))
      [2; 0; 1]%nat
  /\ Permutation (calls (trace done))
       (combine (map snd three_requests) three_results).
Proof.
  apply (responses_in_any_order plain (subordinate [] 0) three_requests
           three_results [2; 0; 1]%nat).
  - reflexivity.
  - cbn. apply perm_trans with (l' := [0; 2; 1]%nat).
    + apply perm_swap.
    + apply perm_skip, perm_swap.
Defined.

Example three_responses_calls :
  calls (trace (snd (handle_all plain (answers three_results [2; 0; 1]%nat)
                       (snd (send_all (with_handlers_all three_requests)
                               (new_client (subordinate [] 0)))))))
  = [(9%nat, VNone);
     (7%nat, VDict [(lit "capabilities", VDict [])]);
     (8%nat, VStr (lit "doc"))].
Proof. vm_compute. reflexivity. Qed.

(** ** Escapes in strings, there and back *)

Lemma hex_value_digit d : d < 16 -> hex_value (hex_digit d) = Some d.
Proof.
  intros Hd. unfold hex_value, hex_digit.
  destruct (N.ltb_spec d 10).
  - rewrite (proj2 (is_digit_range _)) by lia. f_equal. lia.
  - destruct (is_digit (87 + d)) eqn:E; [apply is_digit_range in E; lia|].
    assert (H1 : (97 <=? 87 + d) = true) by (apply N.leb_le; lia).
    assert (H2 : (87 + d <=? 102) = true) by (apply N.leb_le; lia).
    rewrite H1, H2. cbn. f_equal. lia.
Qed.

Lemma decode_hex4 n :
  n < 0x10000 ->
  decode_uXXXX (hex_digit (n / 4096 mod 16)) (hex_digit (n / 256 mod 16))
    (hex_digit (n / 16 mod 16)) (hex_digit (n mod 16)) = Some n.
Proof.
  intros Hn. unfold decode_uXXXX.
  rewrite !hex_value_digit by (apply N.mod_lt; lia).
  f_equal. lia.
Qed.

Lemma land_high_low a b : b < 2 ^ 10 -> N.land (a * 2 ^ 10) b = 0.
Proof.
  intros Hb. apply N.bits_inj. intros i.
  rewrite N.land_spec, N.bits_0.
  destruct (N.lt_ge_cases i 10) as [Hi|Hi].
  - rewrite N.mul_pow2_bits_low by exact Hi. reflexivity.
  - rewrite <- (N.mod_small b (2 ^ 10)) by exact Hb.
    rewrite N.mod_pow2_bits_high by exact Hi. apply andb_false_r.
Qed.

Lemma lor_high_low a b : b < 1024 -> N.lor (a * 1024) b = a * 1024 + b.
Proof.
  intros Hb. change 1024 with (2 ^ 10) in *.
  rewrite <- N.lxor_lor, <- N.add_nocarry_lxor
    by (apply land_high_low; exact Hb).
  reflexivity.
Qed.

Lemma land_3ff x : N.land x 0x3ff = x mod 1024.
Proof. change 0x3ff with (N.ones 10). apply N.land_ones. Qed.

Lemma shiftr_10 x : N.shiftr x 10 = x / 1024.
Proof. apply N.shiftr_div_pow2. Qed.

Lemma shiftl_10 x : N.shiftl x 10 = x * 1024.
Proof. apply N.shiftl_mul_pow2. Qed.

(** The surrogate pair of a code point above the basic plane. *)
Lemma surrogates c :
  0x10000 <= c -> c < 0x110000 ->
  let n := c - 0x10000 in
  let s1 := N.lor 0xd800 (N.land (N.shiftr n 10) 0x3ff) in
  let s2 := N.lor 0xdc00 (N.land n 0x3ff) in
  s1 = 0xd800 + n / 1024 /\ s2 = 0xdc00 + n mod 1024
  /\ 0x10000 + N.lor (N.shiftl (s1 - 0xd800) 10) (s2 - 0xdc00) = c.
Proof.
  intros Hlo Hhi. cbn zeta.
  rewrite !land_3ff, shiftr_10.
  assert (Hq : (c - 0x10000) / 1024 < 1024) by lia.
  rewrite (N.mod_small _ 1024) by exact Hq.
  change 0xd800 with (54 * 1024). change 0xdc00 with (55 * 1024).
  rewrite !lor_high_low by lia.
  split; [reflexivity|]. split; [reflexivity|].
  rewrite shiftl_10.
  replace (54 * 1024 + (c - 65536) / 1024 - 54 * 1024) with ((c - 65536) / 1024) by lia.
  replace (55 * 1024 + (c - 65536) mod 1024 - 55 * 1024) with ((c - 65536) mod 1024) by lia.
  rewrite lor_high_low by lia. lia.
Qed.

Arguments decode_uXXXX : simpl never.
Arguments hex_digit : simpl never.

Lemma scanstring_u a b c d r :
  scanstring (92 :: 117 :: a :: b :: c :: d :: r)
  = match decode_uXXXX a b c d with
    | None => None
    | Some uni =>
        if is_high uni then
          match r with
          | bs :: u :: a' :: b' :: c' :: d' :: r3 =>
              if (bs =? 92) && (u =? 117) then
                match decode_uXXXX a' b' c' d' with
                | None => None
                | Some uni2 =>
                    if is_low uni2
                    then push (0x10000
                               + N.lor (N.shiftl (uni - 0xd800) 10)
                                       (uni2 - 0xdc00))
                              (scanstring r3)
                    else push uni (scanstring r)
                end
              else push uni (scanstring r)
          | _ => push uni (scanstring r)
          end
        else push uni (scanstring r)
    end.
Proof. reflexivity. Qed.

Lemma scanstring_plain c r :
  c <> 34 -> c <> 92 -> 32 <= c ->
  scanstring (c :: r) = push c (scanstring r).
Proof.
  intros H1 H2 H3. cbn [scanstring].
  destruct (N.eqb_spec c 34); [contradiction|].
  destruct (N.eqb_spec c 92); [contradiction|].
  destruct (N.ltb_spec c 32); [lia | reflexivity].
Qed.

Lemma is_scalar_spec c :
  is_scalar c = true <-> c < 0x110000 /\ ~ (0xD800 <= c <= 0xDFFF).
Proof.
  unfold is_scalar.
  rewrite andb_true_iff, negb_true_iff, andb_false_iff, N.ltb_lt, !N.leb_gt.
  lia.
Qed.

(** What [json.dumps] writes for a character, [scanstring] reads as that
    character. *)
Lemma scanstring_escape c s :
  is_scalar c = true ->
  scanstring (escape_char c ++ s) = push c (scanstring s).
Proof.
  intros Hc. apply is_scalar_spec in Hc. destruct Hc as [Hmax Hsur].
  unfold escape_char.
  destruct (N.eqb_spec c 34) as [->|H34]; [reflexivity|].
  destruct (N.eqb_spec c 92) as [->|H92]; [reflexivity|].
  destruct (N.eqb_spec c 10) as [->|H10]; [reflexivity|].
  destruct (N.eqb_spec c 13) as [->|H13]; [reflexivity|].
  destruct (N.eqb_spec c 9) as [->|H9]; [reflexivity|].
  destruct (N.eqb_spec c 8) as [->|H8]; [reflexivity|].
  destruct (N.eqb_spec c 12) as [->|H12]; [reflexivity|].
  destruct ((32 <=? c) && (c <=? 126)) eqn:Hp.
  - apply andb_true_iff in Hp. destruct Hp as [Hlo _]. apply N.leb_le in Hlo.
    apply scanstring_plain; assumption.
  - destruct (N.ltb_spec c 0x10000) as [Hbmp|Hsup].
    + unfold uescape, hex4. cbn [app].
      rewrite scanstring_u, decode_hex4 by exact Hbmp.
      assert (Hh : is_high c = false).
      { unfold is_high. apply andb_false_iff.
        destruct (N.leb_spec 0xd800 c); [right; apply N.leb_gt; lia | left; reflexivity]. }
      rewrite Hh. reflexivity.
    + destruct (surrogates c Hsup Hmax) as (E1 & E2 & E3).
      cbn zeta in E1, E2, E3 |- *.
      set (s1 := N.lor 0xd800 (N.land (N.shiftr (c - 0x10000) 10) 0x3ff)) in *.
      set (s2 := N.lor 0xdc00 (N.land (c - 0x10000) 0x3ff)) in *.
      unfold uescape, hex4. cbn [app].
      rewrite scanstring_u, decode_hex4 by lia.
      assert (Hh : is_high s1 = true).
      { unfold is_high. apply andb_true_iff. split; apply N.leb_le; lia. }
      rewrite Hh. cbn [N.eqb Pos.eqb andb].
      rewrite decode_hex4 by lia.
      assert (Hl : is_low s2 = true).
      { unfold is_low. apply andb_true_iff. split; apply N.leb_le; lia. }
      rewrite Hl, E3. reflexivity.
Qed.

Lemma scanstring_string s rest :
  forallb is_scalar s = true ->
  scanstring (flat_map escape_char s ++ 34 :: rest) = Some (s, rest).
Proof.
  induction s as [|c s IH]; [reflexivity|].
  cbn [forallb flat_map]. intros H. apply andb_true_iff in H.
  destruct H as [Hc Hs].
  rewrite <- app_assoc, (scanstring_escape c _ Hc), (IH Hs). reflexivity.
Qed.

(** ** Numbers, there and back *)

Lemma span_digits_app ds rest :
  forallb is_digit ds = true ->
  ends_number rest = true ->
  span_digits (ds ++ rest) = (ds, rest).
Proof.
  intros Hd Hr. induction ds as [|c ds IH]; cbn [app].
  - destruct rest as [|c r]; [reflexivity|].
    cbn in Hr. apply andb_true_iff in Hr. destruct Hr as [Hn _].
    apply negb_true_iff in Hn. cbn [span_digits]. rewrite Hn. reflexivity.
  - cbn [forallb] in Hd. apply andb_true_iff in Hd. destruct Hd as [Hc Hds].
    cbn [span_digits]. rewrite Hc, (IH Hds). reflexivity.
Qed.

Lemma match_integer_digits n rest :
  ends_number rest = true ->
  exists c t,
    str_of_N n = c :: t /\ c <> 45 /\ is_digit c = true
    /\ match_integer (str_of_N n ++ rest) = Some (str_of_N n, rest)
    /\ match_integer (45 :: str_of_N n ++ rest) = Some (45 :: str_of_N n, rest).
Proof.
  intros Hr. pose proof (str_of_N_digits n) as Hd.
  destruct (N.eq_dec n 0) as [->|Hn].
  - exists 48, []. repeat split; try reflexivity. discriminate.
  - destruct (str_of_N_head n) as (c & t & E & Hc & Hz); [lia|].
    rewrite E in Hd |- *. cbn [forallb] in Hd.
    apply andb_true_iff in Hd. destruct Hd as [_ Ht].
    pose proof (proj1 (is_digit_range c) Hc) as Hrange.
    exists c, t. split; [reflexivity|]. split; [lia|]. split; [exact Hc|].
    assert (E45 : (c =? 45) = false) by (apply N.eqb_neq; lia).
    assert (E48 : (c =? 48) = false) by (apply N.eqb_neq; exact Hz).
    unfold match_integer. cbn [app]. change (45 =? 45) with true. cbn iota.
    rewrite E45, E48, Hc, (span_digits_app t rest Ht Hr).
    split; reflexivity.
Qed.

Lemma scan_number_int z rest :
  ends_number rest = true ->
  scan_number (str_of_Z z ++ rest) = Some (VInt z, rest).
Proof.
  intros Hr. unfold scan_number.
  assert (Hm : match_integer (str_of_Z z ++ rest) = Some (str_of_Z z, rest)).
  { destruct (match_integer_digits (Z.abs_N z) rest Hr) as (c & t & _ & _ & _ & H1 & H2).
    unfold str_of_Z. destruct (z <? 0)%Z; assumption. }
  rewrite Hm, int_of_text_str_of_Z.
  destruct rest as [|c r]; [reflexivity|].
  cbn in Hr. apply andb_true_iff in Hr. destruct Hr as [_ Hn].
  apply negb_true_iff in Hn. rewrite Hn. reflexivity.
Qed.

Lemma str_of_Z_head z :
  exists c t, str_of_Z z = c :: t /\ (c = 45 \/ is_digit c = true).
Proof.
  destruct (match_integer_digits (Z.abs_N z) [] eq_refl) as (c & t & E & _ & Hc & _).
  unfold str_of_Z. destruct (z <? 0)%Z.
  - exists 45, (str_of_N (Z.abs_N z)). auto.
  - exists c, t. auto.
Qed.

(** A text that begins a number is scanned as a number. *)
Lemma scan_once_number f c t :
  c = 45 \/ is_digit c = true ->
  scan_once (S f) (c :: t) = scan_number (c :: t).
Proof.
  intros Hc.
  assert (H : c <> 34 /\ c <> 123 /\ c <> 91 /\ c <> 110 /\ c <> 116 /\ c <> 102).
  { destruct Hc as [->|Hc]; [repeat split; discriminate|].
    apply is_digit_range in Hc. lia. }
  destruct H as (H1 & H2 & H3 & H4 & H5 & H6).
  cbn [scan_once].
  destruct (N.eqb_spec c 34); [contradiction|].
  destruct (N.eqb_spec c 123); [contradiction|].
  destruct (N.eqb_spec c 91); [contradiction|].
  assert (Hs : forall k p, k <> c -> startswith N.eqb (c :: t) (k :: p) = false).
  { intros k p Hk. cbn. destruct (N.eqb_spec k c); [contradiction | reflexivity]. }
  change (lit "null") with (110 :: lit "ull").
  change (lit "true") with (116 :: lit "rue").
  change (lit "false") with (102 :: lit "alse").
  rewrite !Hs by congruence. reflexivity.
Qed.

Lemma scan_once_int f z rest :
  ends_number rest = true ->
  scan_once (S f) (str_of_Z z ++ rest) = Some (VInt z, rest).
Proof.
  intros Hr. destruct (str_of_Z_head z) as (c & t & E & Hc).
  rewrite <- (scan_number_int z rest Hr), E. cbn [app].
  apply scan_once_number, Hc.
Qed.

(** ** Values, there and back *)

Lemma skip_ws_nonws c t : is_ws c = false -> skip_ws (c :: t) = c :: t.
Proof. intros H. unfold skip_ws. cbn. rewrite H. reflexivity. Qed.

Lemma dumps_head v :
  exists c t, json_dumps v = c :: t /\ is_ws c = false /\ c <> 93.
Proof.
  destruct v as [ | [|] | n | s | l | d ].
  - exists 110, (lit "ull"). repeat split. discriminate.
  - exists 116, (lit "rue"). repeat split. discriminate.
  - exists 102, (lit "alse"). repeat split. discriminate.
  - destruct (str_of_Z_head n) as (c & t & E & Hc).
    exists c, t. split; [exact E|].
    destruct Hc as [->|Hc]; [split; [reflexivity | discriminate]|].
    apply is_digit_range in Hc. split; [|lia].
    unfold is_ws.
    destruct (N.eqb_spec c 32); [lia|]. destruct (N.eqb_spec c 9); [lia|].
    destruct (N.eqb_spec c 10); [lia|]. destruct (N.eqb_spec c 13); [lia|].
    reflexivity.
  - eexists 34, _. repeat split. discriminate.
  - eexists 91, _. repeat split. discriminate.
  - eexists 123, _. repeat split. discriminate.
Qed.

Lemma skip_ws_dumps v t : skip_ws (json_dumps v ++ t) = json_dumps v ++ t.
Proof.
  destruct (dumps_head v) as (c & r & -> & Hc & _).
  apply skip_ws_nonws, Hc.
Qed.

(** The elements of a list, scanned back. *)
Lemma array_items_dumps l :
  Forall (fun v => forall fuel rest,
            (need v <= fuel)%nat -> ends_number rest = true ->
            scan_once fuel (json_dumps v ++ rest) = Some (v, rest)) l ->
  l <> [] ->
  forall fuel rest,
    (fold_right (fun x acc => S (need x + acc)) O l <= fuel)%nat ->
    array_items fuel (join (lit ", ") (map json_dumps l) ++ 93 :: rest)
    = Some (l, rest).
Proof.
  induction 1 as [|x l Hx Hl IH]; intros Hne fuel rest Hfuel; [contradiction|].
  cbn [fold_right] in Hfuel.
  destruct fuel as [|f]; [lia|].
  cbn [map join array_items].
  destruct l as [|y l'].
  - cbn [map]. rewrite Hx by (cbn in Hfuel; first [lia | reflexivity]).
    reflexivity.
  - cbn [map]. cbn [map] in IH. rewrite <- !app_assoc.
    rewrite Hx by first [lia | reflexivity].
    change (lit ", " ++ ?t) with (44 :: 32 :: t).
    rewrite skip_ws_nonws by reflexivity.
    change (44 =? 93) with false. change (44 =? 44) with true. cbn iota.
    change (skip_ws (32 :: ?t)) with (skip_ws t).
    destruct (dumps_head y) as (c & r & E & Hc & _).
    assert (Hskip : forall t, skip_ws (join (lit ", ") (json_dumps y :: map json_dumps l') ++ t)
                              = join (lit ", ") (json_dumps y :: map json_dumps l') ++ t).
    { intros t. cbn [join]. destruct (map json_dumps l');
        rewrite ?E; rewrite <- ?app_assoc; apply skip_ws_nonws, Hc. }
    rewrite Hskip, IH by first [discriminate | lia]. reflexivity.
Qed.

Lemma member_shape k v t :
  member (k, v) ++ t
  = 34 :: flat_map escape_char k ++ 34 :: 58 :: 32 :: json_dumps v ++ t.
Proof.
  unfold member, encode_basestring_ascii. cbn [fst snd].
  change (lit ": ") with [58; 32].
  cbn [app]. rewrite <- !app_assoc. reflexivity.
Qed.

(** One member read by the loop of JSONObject, up to what follows its
    value. *)
Lemma object_items_member f k v t :
  forallb is_scalar k = true ->
  scan_once f (json_dumps v ++ t) = Some (v, t) ->
  object_items (S f)
    (flat_map escape_char k ++ 34 :: 58 :: 32 :: json_dumps v ++ t)
  = match skip_ws t with
    | d :: r3 =>
        if d =? 125 then Some ([(k, v)], r3)
        else if d =? 44 then
          match skip_ws r3 with
          | q :: r4 =>
              if q =? 34 then
                match object_items f r4 with
                | Some (kvs, r5) => Some ((k, v) :: kvs, r5)
                | None => None
                end
              else None
          | [] => None
          end
        else None
    | [] => None
    end.
Proof.
  intros Hk Hv. cbn [object_items].
  rewrite (scanstring_string k _ Hk).
  rewrite skip_ws_nonws by reflexivity.
  change (58 =? 58) with true. cbn iota.
  change (skip_ws (32 :: ?x)) with (skip_ws x).
  rewrite skip_ws_dumps, Hv. reflexivity.
Qed.

Lemma join_cons2 sep (a b : pystr) l :
  join sep (a :: b :: l) = a ++ sep ++ join sep (b :: l).
Proof. reflexivity. Qed.

(** The members of a dict, scanned back. *)
Lemma object_items_dumps d :
  Forall (fun kv => forall fuel rest,
            (need (snd kv) <= fuel)%nat -> ends_number rest = true ->
            scan_once fuel (json_dumps (snd kv) ++ rest) = Some (snd kv, rest)) d ->
  forallb (fun kv => forallb is_scalar (fst kv)) d = true ->
  d <> [] ->
  forall fuel rest,
    (fold_right (fun kv acc => S (need (snd kv) + acc)) O d <= fuel)%nat ->
    exists t,
      join (lit ", ") (map member d) = 34 :: t
      /\ object_items fuel (t ++ 125 :: rest) = Some (d, rest).
Proof.
  induction 1 as [|[k v] d Hv Hd IH]; intros Hkeys Hne fuel rest Hfuel;
    [contradiction|].
  cbn [fold_right snd] in Hfuel. cbn [snd] in Hv.
  cbn [forallb fst] in Hkeys. apply andb_true_iff in Hkeys.
  destruct Hkeys as [Hk Hks].
  destruct fuel as [|f]; [lia|].
  destruct d as [|kv' d'].
  - exists (flat_map escape_char k ++ 34 :: 58 :: 32 :: json_dumps v).
    cbn [map join]. split.
    + rewrite <- (app_nil_r (member (k, v))), member_shape, app_nil_r.
      reflexivity.
    + repeat (rewrite <- ?app_assoc; cbn [app]).
      rewrite object_items_member;
        [reflexivity | exact Hk | apply Hv; [cbn in Hfuel; lia | reflexivity]].
  - destruct (IH Hks ltac:(discriminate) f rest ltac:(lia)) as (t' & Et & Ho).
    exists (flat_map escape_char k ++ 34 :: 58 :: 32 :: json_dumps v
              ++ 44 :: 32 :: 34 :: t').
    cbn [map]. cbn [map] in Et. rewrite join_cons2. split.
    + rewrite Et. change (lit ", " ++ 34 :: t') with (44 :: 32 :: 34 :: t').
      apply member_shape.
    + repeat (rewrite <- ?app_assoc; cbn [app]).
      rewrite object_items_member;
        [ | exact Hk | apply Hv; [lia | reflexivity]].
      rewrite skip_ws_nonws by reflexivity.
      change (44 =? 125) with false. change (44 =? 44) with true. cbn iota.
      change (skip_ws (32 :: ?x)) with (skip_ws x).
      rewrite skip_ws_nonws by reflexivity.
      change (34 =? 34) with true. cbn iota.
      rewrite Ho. reflexivity.
Qed.

(** ** Dicts without a repeated key *)

Lemma dict_set_fresh k v acc :
  ~ In k (map fst acc) -> dict_set k v acc = acc ++ [(k, v)].
Proof.
  induction acc as [|[k' v'] acc IH]; intros Hk; [reflexivity|].
  cbn [dict_set app]. unfold pystr_eqb.
  destruct (bool_decide_reflect (k = k')) as [->|Hne].
  - exfalso. apply Hk. left. reflexivity.
  - rewrite IH; [reflexivity|]. intros Hin. apply Hk. right. exact Hin.
Qed.

Lemma fold_dict_set ps : forall acc,
  List.NoDup (map fst ps) ->
  (forall k, In k (map fst ps) -> ~ In k (map fst acc)) ->
  fold_left (fun d kv => dict_set (fst kv) (snd kv) d) ps acc = acc ++ ps.
Proof.
  induction ps as [|[k v] ps IH]; intros acc Hnd Hdis.
  - cbn. rewrite app_nil_r. reflexivity.
  - cbn [fold_left fst snd]. cbn [map fst] in Hnd, Hdis.
    inversion Hnd as [|k0 l0 Hk Hnd']; subst.
    rewrite dict_set_fresh by (apply Hdis; left; reflexivity).
    rewrite IH.
    + rewrite <- app_assoc. reflexivity.
    + exact Hnd'.
    + intros k' Hk' Hin. rewrite map_app, in_app_iff in Hin.
      destruct Hin as [Hin|[<-|[]]].
      * exact (Hdis k' (or_intror Hk') Hin).
      * exact (Hk Hk').
Qed.

Lemma dict_of_pairs_nodup d :
  bool_decide (NoDup (map fst d)) = true -> dict_of_pairs d = d.
Proof.
  intros H. apply bool_decide_eq_true, NoDup_ListNoDup in H.
  unfold dict_of_pairs. rewrite fold_dict_set; [reflexivity | exact H |].
  intros k _ [].
Qed.

(** ** [json.loads (json.dumps v)] *)

Lemma scan_once_dumps v :
  wf_value v = true ->
  forall fuel rest,
    (need v <= fuel)%nat -> ends_number rest = true ->
    scan_once fuel (json_dumps v ++ rest) = Some (v, rest).
Proof.
  induction v as [ | b | n | s | l IH | d IH ] using value_ind;
    intros Hwf fuel rest Hfuel Hrest;
    (destruct fuel as [|f]; [cbn in Hfuel; lia|]).
  - reflexivity.
  - destruct b; reflexivity.
  - apply scan_once_int, Hrest.
  - cbn [json_dumps]. unfold encode_basestring_ascii.
    cbn [app scan_once]. change (34 =? 34) with true. cbn iota.
    rewrite <- app_assoc. cbn [app].
    rewrite (scanstring_string s rest Hwf). reflexivity.
  - cbn [wf_value] in Hwf. cbn [need] in Hfuel.
    assert (IH' : Forall (fun v => forall fuel rest,
                            (need v <= fuel)%nat -> ends_number rest = true ->
                            scan_once fuel (json_dumps v ++ rest) = Some (v, rest)) l).
    { rewrite forallb_forall in Hwf. rewrite List.Forall_forall in IH |- *.
      intros x Hx. apply IH; [exact Hx | apply Hwf, Hx]. }
    cbn [json_dumps app scan_once].
    change (91 =? 34) with false. change (91 =? 123) with false.
    change (91 =? 91) with true. cbn iota.
    rewrite <- app_assoc. cbn [app].
    destruct l as [|x l'].
    + reflexivity.
    + pose proof (array_items_dumps (x :: l') IH' ltac:(discriminate) f rest
                    ltac:(lia)) as Ha.
      assert (Hs : exists c t,
                 join (lit ", ") (map json_dumps (x :: l')) ++ 93 :: rest = c :: t
                 /\ is_ws c = false /\ c <> 93).
      { destruct (dumps_head x) as (c & t & E & Hc & H93).
        cbn [map join]. destruct (map json_dumps l');
          rewrite E; rewrite <- ?app_assoc; cbn [app]; eauto. }
      destruct Hs as (c & t & E & Hc & H93).
      rewrite E in Ha |- *. rewrite skip_ws_nonws by exact Hc.
      destruct (N.eqb_spec c 93); [contradiction|].
      rewrite Ha. reflexivity.
  - cbn [wf_value] in Hwf. apply andb_true_iff in Hwf.
    destruct Hwf as [Hwf Hnd]. cbn [need] in Hfuel.
    assert (IH' : Forall (fun kv => forall fuel rest,
                            (need (snd kv) <= fuel)%nat -> ends_number rest = true ->
                            scan_once fuel (json_dumps (snd kv) ++ rest)
                            = Some (snd kv, rest)) d).
    { rewrite forallb_forall in Hwf. rewrite List.Forall_forall in IH |- *.
      intros x Hx. apply IH; [exact Hx|].
      specialize (Hwf x Hx). apply andb_true_iff in Hwf. tauto. }
    assert (Hkeys : forallb (fun kv => forallb is_scalar (fst kv)) d = true).
    { rewrite forallb_forall in Hwf |- *. intros x Hx.
      specialize (Hwf x Hx). apply andb_true_iff in Hwf. tauto. }
    cbn [json_dumps app scan_once].
    change (123 =? 34) with false. change (123 =? 123) with true. cbn iota.
    rewrite <- app_assoc. cbn [app].
    destruct d as [|kv d'].
    + reflexivity.
    + assert (Hf : (fold_right (fun kv acc => S (need (snd kv) + acc)) O (kv :: d')
                      <= f)%nat).
      { apply le_S_n. exact Hfuel. }
      destruct (object_items_dumps (kv :: d') IH' Hkeys ltac:(discriminate)
                  f rest Hf) as (t & Et & Ho).
      change (join (lit ", ") (map _ (kv :: d')))
        with (join (lit ", ") (map member (kv :: d'))).
      rewrite Et. cbn [app]. rewrite skip_ws_nonws by reflexivity.
      change (34 =? 34) with true. cbn iota.
      rewrite Ho, (dict_of_pairs_nodup _ Hnd). reflexivity.
Qed.

Lemma dumps_nonempty v : (1 <= length (json_dumps v))%nat.
Proof.
  destruct (dumps_head v) as (c & t & -> & _). cbn. lia.
Qed.

Lemma need_items_le {A} (f : A -> value) (g : A -> pystr) (l : list A) :
  Forall (fun a => (need (f a) <= length (g a))%nat) l ->
  (fold_right (fun a acc => S (need (f a) + acc)) O l
   <= S (length (join (lit ", ") (map g l))))%nat.
Proof.
  induction 1 as [|a l Ha Hl IH]; [cbn; lia|].
  cbn [fold_right map]. destruct l as [|b l'].
  - cbn. lia.
  - cbn [map] in IH |- *. rewrite join_cons2, !length_app.
    change (length (lit ", ")) with 2%nat. lia.
Qed.

(** The text of a value is longer than the scanner's recursion on it is
    deep. *)
Lemma need_le_length v : (need v <= length (json_dumps v))%nat.
Proof.
  induction v as [ | b | n | s | l IH | d IH ] using value_ind;
    try apply dumps_nonempty.
  - cbn [need json_dumps length]. rewrite length_app. cbn [length].
    pose proof (need_items_le (fun v => v) json_dumps l IH). lia.
  - cbn [need json_dumps length]. rewrite length_app. cbn [length].
    assert (H : Forall (fun kv => (need (snd kv) <= length (member kv))%nat) d).
    { eapply Forall_impl; [exact IH|]. intros [k v] Hv. cbn [snd] in *.
      unfold member. cbn [fst snd]. rewrite !length_app. lia. }
    pose proof (need_items_le snd member d H) as Hle.
    change (map member d)
      with (map (fun kv => encode_basestring_ascii (fst kv)
                             ++ lit ": " ++ json_dumps (snd kv)) d) in Hle.
    lia.
Qed.

(** [json.loads(json.dumps(v)) == v] *)
Lemma json_loads_dumps v : wf_value v = true -> json_loads (json_dumps v) = Some v.
Proof.
  intros Hwf. unfold json_loads.
  rewrite <- (app_nil_r (json_dumps v)) at 2.
  rewrite skip_ws_dumps.
  rewrite (scan_once_dumps v Hwf _ [] ) ;
    [reflexivity | pose proof (need_le_length v); lia | reflexivity].
Qed.

Lemma utf8_decode_ascii s :
  forallb is_ascii s = true -> utf8_decode (map byte_of_N s) = Some s.
Proof.
  induction s as [|c s IH]; [reflexivity|].
  cbn [forallb map]. intros H. apply andb_true_iff in H. destruct H as [Hc Hs].
  apply is_ascii_lt in Hc. cbn [utf8_decode].
  rewrite to_N_byte_of_N by lia. cbv zeta.
  destruct (N.ltb_spec c 0x80); [|lia].
  rewrite (IH Hs). reflexivity.
Qed.

(** ** Encoding, then decoding *)

(** C2. Every valid payload P (its strings hold Unicode scalar values, its
    dicts no key twice), also one with text outside ASCII, has bytes that
    [send_payload] writes for it, and the reader, given these bytes at the
    head of the channel, takes exactly them off it and gets P back from
    [json.loads]: Decode(Encode(P)) = P. *)
Theorem decode_encode (P : value) :
  wf_value P = true ->
  exists wire,
    encode P = Some wire
    /\ forall (c : client) (p : process_t) (rest : bytes),
         process c = Some p ->
         data (stdout p) = wire ++ rest ->
         decode c = (Ok (Some P), advanced rest p c).
Proof.
  intros Hwf. exists (frame (map byte_of_N (json_dumps P))).
  split; [apply encode_frame|].
  intros c p rest Hp Hd. unfold decode, bind.
  rewrite (read_content_frame c p _ rest Hp Hd).
  - rewrite (utf8_decode_ascii _ (json_dumps_ascii P)).
    rewrite (json_loads_dumps P Hwf). reflexivity.
  - pose proof (dumps_nonempty P) as Hn. intros E.
    apply (f_equal (@length byte)) in E. rewrite length_map in E.
    cbn in E. lia.
Qed.

Lemma decode_encode_witness :
  exists wire,
    encode accented = Some wire
    /\ forall (c : client) (p : process_t) (rest : bytes),
         process c = Some p ->
         data (stdout p) = wire ++ rest ->
         decode c = (Ok (Some accented), advanced rest p c).
Proof. apply (decode_encode accented). vm_compute. reflexivity. Defined.

(** The same on the wire: what is written for [accented] and what the
    reader has after reading it. *)
Example accented_round_trip :
  exists wire,
    encode accented = Some wire
    /\ fst (decode (new_client (subordinate (wire ++ frame due_body) 1)))
       = Ok (Some accented).
Proof. eexists. split; vm_compute; reflexivity. Qed.

(** A string with a lone surrogate pair is not such a payload: the two
    code points come back as one. *)
Example surrogates_merge :
  wf_value (VStr [0xD83D; 0xDE00]) = false
  /\ json_loads (json_dumps (VStr [0xD83D; 0xDE00])) = Some (VStr [0x1F600]).
Proof. split; vm_compute; reflexivity. Qed.

(** ** The reader at work *)

(** Three requests, their responses on the wire in another order: the
    reader calls each handler once, with its own result, and ends when the
    subordinate does. *)
Example three_responses_on_the_wire :
  let done := read_stdout plain
                (snd (send_all (with_handlers_all three_requests)
                        (new_client (subordinate three_frames 5)))) in
  fst done = Ok tt
  /\ calls (trace (snd done))
     = [(9%nat, VNone);
        (7%nat, VDict [(lit "capabilities", VDict [])]);
        (8%nat, VStr (lit "doc"))]
  /\ last (trace (snd done)) = Some (Debug StdoutEnded).
Proof. vm_compute. repeat split; reflexivity. Qed.

(** The reader of the standard error, left alone, ends with its closing log
    entry once the subordinate has ended. *)
Example stderr_reader_ends (err : bytes) :
  read_stderr plain
    (new_client {| stdout := {| data := []; at_end := Eof |};
                   stderr := {| data := err; at_end := Eof |};
                   stdin_open := true; alive := 0 |})
  = (Ok tt,
     with_trace [Debug StderrEnded]
       (new_client {| stdout := {| data := []; at_end := Eof |};
                      stderr := {| data := err; at_end := Eof |};
                      stdin_open := true; alive := 0 |})).
Proof. reflexivity. Qed.

Example format_request_accented :
  format_request (VDict [(lit "a", VStr [233])])
  = lit "Content-Length: 15" ++ CRLF ++ CRLF ++ jlit "{'a': '\u00e9'}".
Proof. vm_compute. reflexivity. Qed.

Example json_loads_samples :
  json_loads (jlit " {'id': 1, 'r': ['\u00e9\ud83d\ude00', null, -20, true], 'r': {}}")
  = Some (VDict [(lit "id", VInt 1); (lit "r", VDict [])])
  /\ json_loads (lit "[1 2]") = None
  /\ json_loads (lit "01") = None
  /\ json_loads (lit "-0") = Some (VInt 0).
Proof. vm_compute. repeat split; reflexivity. Qed.

Example utf8_samples :
  utf8_encode [233; 0x1F600] = Some [xc3; xa9; xf0; x9f; x98; x80]
  /\ utf8_decode [xc3; xa9; xf0; x9f; x98; x80] = Some [233; 0x1F600]
  /\ utf8_decode [xc0; x80] = None
  /\ utf8_encode [0xD800] = None.
Proof. vm_compute. repeat split; reflexivity. Qed.

(** * More of the module *)

(** ** Sending on a pipe that is closed, or without a process *)

Lemma send_payload_open payload c p :
  process c = Some p -> stdin_open p = true ->
  send_payload payload c
  = (Ok tt, with_trace (trace c ++ [Wrote (wire_of payload); Flushed]) c).
Proof.
  intros Hp Ho.
  unfold send_payload, try_except, bind, self_process, of_option.
  rewrite Hp. fold (encode payload). rewrite encode_frame, Ho.
  unfold ret, emit, with_trace. cbn. rewrite <- app_assoc. reflexivity.
Qed.

Lemma send_payload_closed payload c p :
  process c = Some p -> stdin_open p = false ->
  send_payload payload c
  = (Ok tt, with_trace (trace c ++ [Printf (ClientDied BrokenPipeError)]) c).
Proof.
  intros Hp Ho.
  unfold send_payload, try_except, bind, self_process, of_option.
  rewrite Hp. fold (encode payload). rewrite encode_frame, Ho. reflexivity.
Qed.

Lemma send_payload_gone payload c :
  process c = None -> send_payload payload c = (Raise AttributeError, c).
Proof.
  intros Hp. unfold send_payload, try_except, bind, self_process.
  rewrite Hp. reflexivity.
Qed.

(** X1. A request sent while the pipe to the subordinate is broken:
    [send_request] returns normally, the failure is printed, nothing is
    written; the id is used up all the same and the handler stays filed
    under it. *)
Theorem send_request_on_broken_pipe (r : Request) (h : handler) (c : client)
    (p : process_t) :
  process c = Some p ->
  stdin_open p = false ->
  send_request r (Some h) c
  = (Ok tt,
     {| process := Some p;
        request_id := request_id c + 1;
        handlers := <[(request_id c + 1)%Z := h]> (handlers c);
        trace := trace c ++ [Debug (RequestSent (request_id c + 1) (method r));
                             Printf (ClientDied BrokenPipeError)] |}).
Proof.
  intros Hp Ho. unfold send_request, bind, debug, emit, ret. cbn.
  erewrite send_payload_closed; [|exact Hp|exact Ho].
  unfold with_trace. cbn. rewrite Hp, <- app_assoc. reflexivity.
Qed.

Lemma send_request_on_broken_pipe_witness :
  send_request initialize (Some 7%nat)
    (new_client {| stdout := {| data := []; at_end := Eof |};
                   stderr := {| data := []; at_end := Eof |};
                   stdin_open := false; alive := 1 |})
  = (Ok tt,
     {| process := Some {| stdout := {| data := []; at_end := Eof |};
                           stderr := {| data := []; at_end := Eof |};
                           stdin_open := false; alive := 1 |};
        request_id := 0 + 1;
        handlers := <[(0 + 1)%Z := 7%nat]> ∅;
        trace := [] ++ [Debug (RequestSent (0 + 1) (lit "initialize"));
                        Printf (ClientDied BrokenPipeError)] |}).
Proof.
  apply (send_request_on_broken_pipe initialize 7%nat
           (new_client {| stdout := {| data := []; at_end := Eof |};
                          stderr := {| data := []; at_end := Eof |};
                          stdin_open := false; alive := 1 |}));
    reflexivity.
Defined.

(** X2. A request sent once [self.process] is [None] (the reader of the
    standard output has given up): AttributeError reaches the caller, which
    [except BrokenPipeError] does not catch; by then the counter has gone up
    and the handler is filed. *)
Theorem send_request_without_process (r : Request) (h : option handler)
    (c : client) :
  process c = None ->
  send_request r h c
  = (Raise AttributeError,
     {| process := None;
        request_id := request_id c + 1;
        handlers := match h with
                    | Some f => <[(request_id c + 1)%Z := f]> (handlers c)
                    | None => handlers c
                    end;
        trace := trace c ++ [Debug (RequestSent (request_id c + 1) (method r))] |}).
Proof.
  intros Hp. unfold send_request, bind, debug, emit, ret.
  destruct h as [f|]; cbn; rewrite send_payload_gone by exact Hp;
    unfold with_trace; cbn; rewrite Hp; reflexivity.
Qed.

Lemma send_request_without_process_witness :
  send_request initialize (Some 7%nat)
    (snd (read_stdout plain (new_client (failing {| data := []; at_end := Eof |} true 0))))
  = (Raise AttributeError,
     {| process := None;
        request_id := 0 + 1;
        handlers := <[(0 + 1)%Z := 7%nat]> ∅;
        trace := [Printf (StdoutException IOError); Terminated]
                   ++ [Debug (RequestSent (0 + 1) (lit "initialize"))] |}).
Proof.
  apply (send_request_without_process initialize (Some 7%nat)
           (snd (read_stdout plain
                   (new_client (failing {| data := []; at_end := Eof |} true 0))))).
  reflexivity.
Defined.

(** ** Steps that add nothing of a kind to the trace *)

Section Keeping.

Context {X : Type} (obs : list event -> list X).
Hypothesis obs_app : forall a b, obs (a ++ b) = obs a ++ obs b.
Hypothesis obs_nil : obs [] = [].

Lemma kept_refl c : kept obs c c.
Proof.
  repeat split. exists []. rewrite app_nil_r. split; [reflexivity | exact obs_nil].
Qed.

Lemma kept_trans c1 c2 c3 : kept obs c1 c2 -> kept obs c2 c3 -> kept obs c1 c3.
Proof.
  intros (Hp & Hr & Hh & e1 & Ht & He) (Hp' & Hr' & Hh' & e2 & Ht' & He').
  repeat split; try congruence.
  exists (e1 ++ e2). rewrite Ht', Ht, <- app_assoc, obs_app, He, He'.
  split; reflexivity.
Qed.

Lemma Keeps_ret {A} (a : A) : Keeps obs (ret a).
Proof. intros c. apply kept_refl. Qed.

Lemma Keeps_raise {A} e : Keeps obs (@raise A e).
Proof. intros c. apply kept_refl. Qed.

Lemma Keeps_lift {A} (r : res A) : Keeps obs (lift r).
Proof. intros c. apply kept_refl. Qed.

Lemma Keeps_of_option {A} (o : option A) e : Keeps obs (of_option o e).
Proof. destruct o; [apply Keeps_ret | apply Keeps_raise]. Qed.

Lemma Keeps_bind {A B} (m : M A) (k : A -> M B) :
  Keeps obs m -> (forall a, Keeps obs (k a)) -> Keeps obs (bind m k).
Proof.
  intros Hm Hk c. unfold bind. specialize (Hm c).
  destruct (m c) as [[a|e] c']; cbn [snd] in *; [|exact Hm].
  eapply kept_trans; [exact Hm | apply Hk].
Qed.

Lemma Keeps_try {A} (m : M A) cls h :
  Keeps obs m -> (forall e, Keeps obs (h e)) -> Keeps obs (try_except m cls h).
Proof.
  intros Hm Hh c. unfold try_except. specialize (Hm c).
  destruct (m c) as [[a|e] c']; cbn [snd] in *; [exact Hm|].
  destruct (cls e); [|exact Hm].
  eapply kept_trans; [exact Hm | apply Hh].
Qed.

Lemma Keeps_emit ev : obs [ev] = [] -> Keeps obs (emit ev).
Proof.
  intros H c. repeat split. exists [ev]. split; [reflexivity | exact H].
Qed.

Lemma Keeps_self_process : Keeps obs self_process.
Proof. intros c. unfold self_process. destruct (process c); apply kept_refl. Qed.

Lemma Keeps_handlers_get (k : Z) :
  Keeps obs (fun c => of_option (handlers c !! k) KeyError c).
Proof. intros c. apply Keeps_of_option. Qed.

Lemma Keeps_if {A} (b : bool) (m1 m2 : M A) :
  Keeps obs m1 -> Keeps obs m2 -> Keeps obs (if b then m1 else m2).
Proof. destruct b; auto. Qed.

Lemma Keeps_global b : Keeps obs (global b).
Proof. destruct b; [apply Keeps_ret | apply Keeps_raise]. Qed.

End Keeping.

Lemma writes_app a b : writes (a ++ b) = writes a ++ writes b.
Proof.
  induction a as [|e a IH]; [reflexivity|].
  destruct e; cbn [writes app]; rewrite IH; reflexivity.
Qed.

Ltac keeps obs_app :=
  repeat first
    [ apply (Keeps_bind _ obs_app); [|intros ?]
    | apply (Keeps_try _ obs_app); [|intros ?]
    | apply Keeps_if
    | apply Keeps_emit; reflexivity
    | apply Keeps_ret; reflexivity
    | apply Keeps_raise; reflexivity
    | apply Keeps_lift; reflexivity
    | apply Keeps_of_option; reflexivity
    | apply Keeps_self_process; reflexivity
    | apply Keeps_handlers_get; reflexivity
    | apply Keeps_global; reflexivity
    | match goal with
      | |- Keeps _ (match ?x with _ => _ end) => destruct x
      end ].

(** Nothing is written to the subordinate while a payload is handled. *)
Lemma dispatch_writes_nothing E d : Keeps writes (dispatch E d).
Proof.
  unfold dispatch, request_handler, notification_handler, response_handler,
    ext, debug.
  keeps writes_app.
Qed.

Lemma handle_writes_nothing E d : Keeps writes (handle E d).
Proof.
  apply (Keeps_try _ writes_app); [apply dispatch_writes_nothing|].
  intros e. apply Keeps_emit. reflexivity.
Qed.

(** ** What goes out, and in which order *)

Lemma send_request_open r h c p :
  process c = Some p -> stdin_open p = true ->
  send_request r h c
  = (Ok tt,
     {| process := Some p;
        request_id := request_id c + 1;
        handlers := match h with
                    | Some f => <[(request_id c + 1)%Z := f]> (handlers c)
                    | None => handlers c
                    end;
        trace := trace c ++ [Debug (RequestSent (request_id c + 1) (method r));
                             Wrote (wire_of (to_payload r (request_id c + 1)));
                             Flushed] |}).
Proof.
  intros Hp Ho. unfold send_request, bind, debug, emit, ret.
  destruct h as [f|]; cbn;
    (erewrite send_payload_open; [|exact Hp|exact Ho]);
    unfold with_trace; cbn; rewrite Hp, <- app_assoc; reflexivity.
Qed.

Lemma send_notification_open r c p :
  process c = Some p -> stdin_open p = true ->
  send_notification r c
  = (Ok tt,
     with_trace (trace c ++ [Debug (NotifySent (method r));
                             Wrote (wire_of (notification_payload r));
                             Flushed]) c).
Proof.
  intros Hp Ho. unfold send_notification, bind, debug, emit.
  erewrite send_payload_open; [|exact Hp|exact Ho].
  unfold with_trace. cbn. rewrite <- app_assoc. reflexivity.
Qed.

(** X3. With the pipe open, what is written to the subordinate is, in the
    order of the calls, one frame for each request and each notification
    sent, the frame of a request carrying the id given to it; handling
    inbound payloads in between writes nothing. *)
Theorem writes_follow_calls (E : environ) (ops : list op) (c : client)
    (p : process_t) :
  process c = Some p ->
  stdin_open p = true ->
  fst (run_ops E ops c) = Ok tt
  /\ writes (trace (snd (run_ops E ops c)))
     = writes (trace c) ++ wires (request_id c) ops.
Proof.
  revert c. induction ops as [|[r h|r|d] ops IH]; intros c Hp Ho.
  - cbn. rewrite app_nil_r. auto.
  - cbn [run_ops wires]. unfold bind.
    rewrite (send_request_open r h c p Hp Ho).
    match goal with |- context [run_ops E ops ?c1] =>
      destruct (IH c1 eq_refl Ho) as (H1 & H2) end.
    cbn [request_id trace] in H2. rewrite H1, H2.
    split; [reflexivity|].
    rewrite writes_app, <- app_assoc. reflexivity.
  - cbn [run_ops wires]. unfold bind.
    rewrite (send_notification_open r c p Hp Ho).
    match goal with |- context [run_ops E ops ?c1] =>
      destruct (IH c1 Hp Ho) as (H1 & H2) end.
    cbn [request_id trace with_trace] in H2. rewrite H1, H2.
    split; [reflexivity|].
    rewrite writes_app, <- app_assoc. reflexivity.
  - cbn [run_ops wires]. unfold bind.
    destruct (handle_returns E d c) as (Hf & _).
    destruct (handle_writes_nothing E d c) as (Hq & Hr & _ & evs & Ht & Hw).
    destruct (handle E d c) as [[[]|e] c1]; [|discriminate].
    cbn [snd] in *. rewrite Hp in Hq.
    destruct (IH c1 Hq Ho) as (H1 & H2).
    rewrite H1, H2, Hr, Ht, writes_app, Hw, app_nil_r. auto.
Qed.

Lemma writes_follow_calls_witness :
  fst (run_ops plain
         [Send initialize (Some 7%nat); Receive error_response; Notify initialize;
          Send initialize None]
         (new_client (subordinate [] 0))) = Ok tt
  /\ writes (trace (snd (run_ops plain
                           [Send initialize (Some 7%nat); Receive error_response;
                            Notify initialize; Send initialize None]
                           (new_client (subordinate [] 0)))))
     = writes (trace (new_client (subordinate [] 0)))
         ++ wires (request_id (new_client (subordinate [] 0)))
              [Send initialize (Some 7%nat); Receive error_response;
               Notify initialize; Send initialize None].
Proof.
  apply (writes_follow_calls plain _ (new_client (subordinate [] 0))
           (subordinate [] 0)); reflexivity.
Defined.

(** ** Header blocks *)

Lemma lstrip_by_spaces {A} (sp : A -> bool) t u :
  forallb sp t = true -> lstrip_by sp (t ++ u) = lstrip_by sp u.
Proof.
  induction t as [|x t IH]; [reflexivity|].
  cbn [forallb app lstrip_by]. intros H. apply andb_true_iff in H.
  destruct H as [Hx Ht]. rewrite Hx. exact (IH Ht).
Qed.

Lemma strip_by_tail {A} (sp : A -> bool) (h t : list A) :
  forallb sp t = true ->
  (forall c, head h = Some c -> sp c = false) ->
  (forall c, head (rev h) = Some c -> sp c = false) ->
  strip_by sp (h ++ t) = h.
Proof.
  intros Ht Hh Hl. unfold strip_by. destruct h as [|c h].
  - cbn [app]. rewrite <- (app_nil_r t), lstrip_by_spaces by exact Ht.
    reflexivity.
  - assert (E1 : lstrip_by sp ((c :: h) ++ t) = (c :: h) ++ t)
      by (cbn; rewrite (Hh c eq_refl); reflexivity).
    rewrite E1, rev_app_distr.
    rewrite lstrip_by_spaces by (apply forallb_rev, Ht).
    destruct (rev (c :: h)) as [|x r] eqn:Er.
    + apply (f_equal (@length A)) in Er. rewrite length_rev in Er. discriminate.
    + cbn [lstrip_by]. rewrite (Hl x eq_refl), <- Er. apply rev_involutive.
Qed.

Lemma length_text_ends n :
  (forall c, head (ContentLengthHeader ++ map byte_of_N (str_of_N n)) = Some c ->
             is_space (Byte.to_N c) = false)
  /\ (forall c, head (rev (ContentLengthHeader ++ map byte_of_N (str_of_N n))) = Some c ->
                is_space (Byte.to_N c) = false).
Proof.
  split.
  - intros c [= <-]. reflexivity.
  - intros c. rewrite rev_app_distr, <- map_rev.
    pose proof (forallb_rev _ _ (str_of_N_digits n)) as Hd.
    destruct (rev (str_of_N n)) as [|d t] eqn:Er.
    + apply (f_equal (@length N)) in Er. rewrite length_rev in Er.
      destruct (str_of_N n) eqn:E0;
        [exact (False_ind _ (str_of_N_nonempty _ E0)) | discriminate].
    + cbn. intros [= <-]. cbn in Hd. apply andb_true_iff in Hd.
      destruct Hd as [Hd _]. pose proof (proj1 (is_digit_range d) Hd).
      rewrite to_N_byte_of_N by lia. apply is_digit_not_space, Hd.
Qed.

Lemma length_line_strip n crlf :
  bstrip (hline_bytes (Length n, crlf))
  = ContentLengthHeader ++ map byte_of_N (str_of_N n).
Proof.
  unfold bstrip, hline_bytes. cbn [fst snd hline_text].
  destruct (length_text_ends n) as [Hh Hl].
  apply strip_by_tail; [destruct crlf; reflexivity | exact Hh | exact Hl].
Qed.

Lemma length_text_no_LF n :
  no_LF (ContentLengthHeader ++ map byte_of_N (str_of_N n)) = true.
Proof.
  pose proof (header_line_no_LF n) as H. unfold no_LF.
  rewrite app_assoc, forallb_app in H. apply andb_true_iff in H. tauto.
Qed.

(** Any header line is read as one line, whichever its line end. *)
Lemma stdout_readline_hline c p l rest :
  process c = Some p ->
  data (stdout p) = hline_bytes l ++ rest ->
  no_LF (hline_text (fst l)) = true ->
  stdout_readline c = (Ok (hline_bytes l), advanced rest p c).
Proof.
  intros Hp Hd Hn. destruct l as [t [|]]; unfold hline_bytes in *;
    cbn [fst snd eol] in *.
  - rewrite (stdout_readline_line c p (hline_text t ++ [x0d]) rest Hp).
    + rewrite <- app_assoc. reflexivity.
    + rewrite Hd, <- !app_assoc. reflexivity.
    + unfold no_LF in Hn. apply forallb_app_true; [exact Hn | reflexivity].
  - rewrite (stdout_readline_line c p (hline_text t) rest Hp).
    + reflexivity.
    + rewrite Hd, <- app_assoc. reflexivity.
    + exact Hn.
Qed.

Lemma stdout_readline_blank c p blank rest :
  process c = Some p ->
  data (stdout p) = eol blank ++ rest ->
  stdout_readline c = (Ok (eol blank), advanced rest p c).
Proof.
  intros Hp Hd. destruct blank; cbn [eol] in *.
  - apply (stdout_readline_line c p [x0d] rest Hp Hd). reflexivity.
  - apply (stdout_readline_line c p [] rest Hp Hd). reflexivity.
Qed.

(** The header loop on a block of header lines. *)
Lemma read_headers_block ls : forall cl fuel c p blank after,
  process c = Some p ->
  data (stdout p) = header_block ls blank ++ after ->
  forallb line_ok ls = true ->
  (length ls < fuel)%nat ->
  read_headers fuel cl c = (Ok (last_length cl ls), advanced after p c).
Proof.
  induction ls as [|l ls IH]; intros cl fuel c p blank after Hp Hd Hok Hfuel;
    (destruct fuel as [|f]; [cbn in Hfuel; lia|]).
  - unfold header_block in Hd. cbn [map concat app] in Hd.
    cbn [read_headers last_length]. unfold bind at 1.
    rewrite (stdout_readline_blank c p blank after Hp Hd).
    destruct blank; reflexivity.
  - unfold header_block in Hd. cbn [map concat] in Hd.
    rewrite <- !app_assoc in Hd.
    cbn [forallb] in Hok. apply andb_true_iff in Hok. destruct Hok as [Hl Hls].
    cbn [read_headers]. unfold bind at 1.
    assert (Hn : no_LF (hline_text (fst l)) = true).
    { destruct l as [[n|h] e]; cbn [fst hline_text].
      - apply length_text_no_LF.
      - unfold line_ok in Hl. cbn [fst] in Hl.
        apply andb_true_iff in Hl. destruct Hl as [Hl _].
        apply andb_true_iff in Hl. tauto. }
    rewrite (stdout_readline_hline c p l _ Hp Hd Hn).
    assert (Hnext : forall cl', read_headers f cl' (advanced
                      (concat (map hline_bytes ls) ++ eol blank ++ after) p c)
                    = (Ok (last_length cl' ls), advanced after p c)).
    { intros cl'.
      rewrite (IH cl' f
                 (advanced (concat (map hline_bytes ls) ++ eol blank ++ after) p c)
                 (with_stdout {| data := concat (map hline_bytes ls)
                                           ++ eol blank ++ after;
                                 at_end := at_end (stdout p) |} p)
                 blank after eq_refl).
      - reflexivity.
      - unfold header_block. rewrite <- app_assoc. reflexivity.
      - exact Hls.
      - cbn in Hfuel. lia. }
    destruct l as [[n|h] e].
    + rewrite length_line_strip, startswith_app, skipn_app_length,
        header_line_value.
      unfold of_option, bind at 1, ret at 1.
      assert (Hne : (length (ContentLengthHeader ++ map byte_of_N (str_of_N n)) =? 0)%nat
                    = false) by reflexivity.
      rewrite Hne. cbn [negb last_length]. apply Hnext.
    + unfold line_ok in Hl. cbn [fst] in Hl.
      apply andb_true_iff in Hl. destruct Hl as [Hl Hs].
      apply andb_true_iff in Hl. destruct Hl as [_ Hne].
      apply negb_true_iff in Hs. apply negb_true_iff in Hne.
      rewrite Hs, Hne. unfold bind at 1, ret at 1.
      cbn [negb last_length]. apply Hnext.
Qed.

Lemma block_length ls :
  (length ls <= length (concat (map hline_bytes ls)))%nat.
Proof.
  induction ls as [|[t e] ls IH]; [cbn; lia|].
  cbn [map concat length]. rewrite length_app.
  unfold hline_bytes at 1. cbn [fst snd]. rewrite length_app.
  destruct e; cbn [eol length]; lia.
Qed.

Lemma read_headers_of_block ls blank after c p :
  process c = Some p ->
  data (stdout p) = header_block ls blank ++ after ->
  forallb line_ok ls = true ->
  read_headers (S (pending c)) 0 c
  = (Ok (last_length 0 ls), advanced after p c).
Proof.
  intros Hp Hd Hok.
  apply (read_headers_block ls 0%Z _ c p blank after Hp Hd Hok).
  unfold pending. rewrite Hp, Hd. unfold header_block.
  rewrite !length_app. pose proof (block_length ls). lia.
Qed.

(** X4. The header loop takes header lines that end with CR LF or with a
    bare LF, passes over the lines that are not [Content-Length: ], and of
    several [Content-Length] lines keeps the last: the body read after the
    empty line has the length that line gives, and the channel is left
    right after it. *)
Theorem header_block_announces (ls : list (hline * bool)) (blank : bool)
    (body rest : bytes) (c : client) (p : process_t) :
  process c = Some p ->
  data (stdout p) = header_block ls blank ++ body ++ rest ->
  forallb line_ok ls = true ->
  last_length 0 ls = Z.of_nat (length body) ->
  body <> [] ->
  read_content c
  = match utf8_decode body with
    | Some text => (Ok (Some text), advanced rest p c)
    | None => (Raise UnicodeDecodeError, advanced rest p c)
    end.
Proof.
  intros Hp Hd Hok Hlen Hne. unfold read_content, bind at 1.
  rewrite (read_headers_of_block ls blank (body ++ rest) c p Hp Hd Hok), Hlen.
  destruct (Z.ltb_spec 0 (Z.of_nat (length body))) as [_|Hle].
  2:{ destruct body; [contradiction | cbn in Hle; lia]. }
  rewrite Nat2Z.id. unfold bind at 1.
  erewrite (stdout_read_exact _ _ body rest); [|reflexivity|reflexivity].
  unfold bind, of_option, ret, raise.
  destruct (utf8_decode body); reflexivity.
Qed.

Lemma header_block_announces_witness :
  read_content (new_client (subordinate (header_block mixed_block false
                                           ++ due_body ++ frame stray_body) 1))
  = match utf8_decode due_body with
    | Some text =>
        (Ok (Some text),
         advanced (frame stray_body)
           (subordinate (header_block mixed_block false
                           ++ due_body ++ frame stray_body) 1)
           (new_client (subordinate (header_block mixed_block false
                                       ++ due_body ++ frame stray_body) 1)))
    | None =>
        (Raise UnicodeDecodeError,
         advanced (frame stray_body)
           (subordinate (header_block mixed_block false
                           ++ due_body ++ frame stray_body) 1)
           (new_client (subordinate (header_block mixed_block false
                                       ++ due_body ++ frame stray_body) 1)))
    end.
Proof.
  apply (header_block_announces mixed_block false due_body (frame stray_body));
    try reflexivity.
  discriminate.
Defined.

(** X5. A header block without a [Content-Length] line, or whose last one
    says 0: no body is read. [read_content] has nothing, the channel is
    left right after the empty line, and the turn of the reader ends there:
    nothing is parsed, dispatched or logged, and the loop goes on. *)
Theorem no_length_no_body (E : environ) (ls : list (hline * bool))
    (blank : bool) (after : bytes) (c : client) (p : process_t) :
  process c = Some p ->
  data (stdout p) = header_block ls blank ++ after ->
  forallb line_ok ls = true ->
  last_length 0 ls = 0%Z ->
  read_content c = (Ok None, advanced after p c)
  /\ stdout_turn E c = (Ok Next, advanced after p c).
Proof.
  intros Hp Hd Hok Hlen.
  assert (H : read_content c = (Ok None, advanced after p c)).
  { unfold read_content, bind at 1.
    rewrite (read_headers_of_block ls blank after c p Hp Hd Hok), Hlen.
    reflexivity. }
  split; [exact H|].
  unfold stdout_turn, try_except, bind. rewrite H. reflexivity.
Qed.

Lemma no_length_no_body_witness :
  read_content (new_client (subordinate
                  (header_block [(Other (blit "X-Trace: on"), true); (Length 0, true)] true
                     ++ frame due_body) 1))
  = (Ok None,
     advanced (frame due_body)
       (subordinate
          (header_block [(Other (blit "X-Trace: on"), true); (Length 0, true)] true
             ++ frame due_body) 1)
       (new_client (subordinate
          (header_block [(Other (blit "X-Trace: on"), true); (Length 0, true)] true
             ++ frame due_body) 1)))
  /\ stdout_turn plain
       (new_client (subordinate
          (header_block [(Other (blit "X-Trace: on"), true); (Length 0, true)] true
             ++ frame due_body) 1))
     = (Ok Next,
        advanced (frame due_body)
          (subordinate
             (header_block [(Other (blit "X-Trace: on"), true); (Length 0, true)] true
                ++ frame due_body) 1)
          (new_client (subordinate
             (header_block [(Other (blit "X-Trace: on"), true); (Length 0, true)] true
                ++ frame due_body) 1))).
Proof.
  apply (no_length_no_body plain
           [(Other (blit "X-Trace: on"), true); (Length 0, true)] true
           (frame due_body)); reflexivity.
Defined.

(** ** What ends the reader of the standard output *)

Lemma stdout_loop_step E f c p k :
  process c = Some p -> alive p = S k ->
  stdout_loop E (S f) c
  = match stdout_turn E (with_process (Some (with_alive k p)) c) with
    | (Ok Next, c') => stdout_loop E f c'
    | (Ok Return, c') => (Ok tt, c')
    | (Raise e, c') => (Raise e, c')
    end.
Proof.
  intros Hp Ha. cbn [stdout_loop]. unfold bind at 1.
  rewrite (poll_alive c p k Hp Ha). unfold bind.
  destruct (stdout_turn E _) as [[[|]|e] c']; reflexivity.
Qed.

(** X6. A body that is not valid UTF-8: UnicodeDecodeError is not an
    IOError, so it leaves [read_stdout]. Nothing is logged, the subordinate
    is not terminated, [self.process] stays, and what follows the frame on
    the channel is never read. *)
Theorem undecodable_body_ends_reader (E : environ) (f : nat) (c : client)
    (p : process_t) (k : nat) (body rest : bytes) :
  process c = Some p ->
  alive p = S k ->
  data (stdout p) = frame body ++ rest ->
  utf8_decode body = None ->
  stdout_loop E (S f) c
  = (Raise UnicodeDecodeError, advanced rest (with_alive k p) c).
Proof.
  intros Hp Ha Hd Hu.
  rewrite (stdout_loop_step E f c p k Hp Ha).
  unfold stdout_turn, try_except, bind.
  erewrite (read_content_frame _ (with_alive k p) body rest);
    [ | reflexivity | exact Hd | intros ->; discriminate Hu ].
  rewrite Hu. reflexivity.
Qed.

Lemma undecodable_body_ends_reader_witness :
  stdout_loop plain 3 (initialized (frame [xc3; x28] ++ frame due_body) 3)
  = (Raise UnicodeDecodeError,
     advanced (frame due_body)
       (with_alive 2 (subordinate (frame [xc3; x28] ++ frame due_body) 3))
       (initialized (frame [xc3; x28] ++ frame due_body) 3)).
Proof.
  apply (undecodable_body_ends_reader plain 2
           (initialized (frame [xc3; x28] ++ frame due_body) 3)
           (subordinate (frame [xc3; x28] ++ frame due_body) 3) 2
           [xc3; x28] (frame due_body)); reflexivity.
Defined.

(** X7. A body that is JSON but not an object (a list, a number, a string,
    [null], [true]): [payload.get] raises AttributeError inside the [try] of
    line 88, whose [except IOError] lets it pass, and so does the outer one.
    The reader ends with that exception, having logged nothing. *)
Theorem non_object_body_ends_reader (E : environ) (f : nat) (c : client)
    (p : process_t) (k : nat) (body rest : bytes) (text : pystr) (v : value) :
  process c = Some p ->
  alive p = S k ->
  data (stdout p) = frame body ++ rest ->
  body <> [] ->
  utf8_decode body = Some text ->
  json_loads text = Some v ->
  (forall d, v <> VDict d) ->
  stdout_loop E (S f) c
  = (Raise AttributeError, advanced rest (with_alive k p) c).
Proof.
  intros Hp Ha Hd Hne Hu Hl Hv.
  rewrite (stdout_loop_step E f c p k Hp Ha).
  unfold stdout_turn, try_except. unfold bind at 1.
  erewrite (read_content_frame _ (with_alive k p) body rest);
    [ | reflexivity | exact Hd | exact Hne ].
  rewrite Hu. unfold bind at 1.
  unfold parse_content, try_except, bind, of_option. rewrite Hl.
  destruct v as [ | b | n | s | l | d ]; try reflexivity.
  exfalso. exact (Hv d eq_refl).
Qed.

Lemma non_object_body_ends_reader_witness :
  stdout_loop plain 3
    (initialized (frame (ascii_bytes (lit "[1, 2]")) ++ frame due_body) 3)
  = (Raise AttributeError,
     advanced (frame due_body)
       (with_alive 2
          (subordinate (frame (ascii_bytes (lit "[1, 2]")) ++ frame due_body) 3))
       (initialized (frame (ascii_bytes (lit "[1, 2]")) ++ frame due_body) 3)).
Proof.
  apply (non_object_body_ends_reader plain 2
           (initialized (frame (ascii_bytes (lit "[1, 2]")) ++ frame due_body) 3)
           (subordinate (frame (ascii_bytes (lit "[1, 2]")) ++ frame due_body) 3) 2
           (ascii_bytes (lit "[1, 2]")) (frame due_body) (lit "[1, 2]")
           (VList [VInt 1; VInt 2]));
    try reflexivity; try discriminate.
Defined.

Lemma stdout_read_broken c p m :
  process c = Some p ->
  at_end (stdout p) = Broken ->
  (length (data (stdout p)) < m)%nat ->
  stdout_read m c
  = (Raise IOError,
     with_process (Some (with_stdout {| data := []; at_end := Broken |} p)) c).
Proof.
  intros Hp He Hm. unfold stdout_read, bind, self_process. rewrite Hp.
  unfold chan_read. destruct (Nat.leb_spec m (length (data (stdout p)))); [lia|].
  rewrite He. reflexivity.
Qed.

(** X8. The read of a body fails (the channel breaks before the announced
    bytes are there): the IOError is caught at line 114, as one raised while
    the headers are read is. The failure is printed, the subordinate is
    terminated, [self.process] is set to [None], and [read_stdout] returns
    without its closing log entry. *)
Theorem body_read_failure_ends_reader (E : environ) (f : nat) (c : client)
    (p : process_t) (k : nat) (ls : list (hline * bool)) (blank : bool)
    (partial : bytes) :
  process c = Some p ->
  alive p = S k ->
  data (stdout p) = header_block ls blank ++ partial ->
  at_end (stdout p) = Broken ->
  forallb line_ok ls = true ->
  (Z.of_nat (length partial) < last_length 0 ls)%Z ->
  stdout_loop E (S f) c
  = (Ok tt,
     {| process := None;
        request_id := request_id c;
        handlers := handlers c;
        trace := trace c ++ [Printf (StdoutException IOError); Terminated] |}).
Proof.
  intros Hp Ha Hd He Hok Hlen.
  rewrite (stdout_loop_step E f c p k Hp Ha).
  unfold stdout_turn, try_except. unfold bind at 1.
  unfold read_content. unfold bind at 1.
  erewrite (read_headers_of_block ls blank partial _ (with_alive k p));
    [ | reflexivity | exact Hd | exact Hok ].
  destruct (Z.ltb_spec 0 (last_length 0 ls)) as [_|Hle]; [|lia].
  unfold bind at 1.
  erewrite stdout_read_broken; [ | reflexivity | exact He | cbn; lia ].
  cbn. unfold with_trace, with_process. cbn.
  rewrite <- app_assoc. reflexivity.
Qed.

Lemma body_read_failure_ends_reader_witness :
  stdout_loop plain 2
    (new_client {| stdout := {| data := header_block [(Length 20, true)] true
                                          ++ blit "{";
                                at_end := Broken |};
                   stderr := {| data := []; at_end := Eof |};
                   stdin_open := true; alive := 1 |})
  = (Ok tt,
     {| process := None;
        request_id := 0;
        handlers := ∅;
        trace := [] ++ [Printf (StdoutException IOError); Terminated] |}).
Proof.
  apply (body_read_failure_ends_reader plain 1
           (new_client {| stdout := {| data := header_block [(Length 20, true)] true
                                                 ++ blit "{";
                                       at_end := Broken |};
                          stderr := {| data := []; at_end := Eof |};
                          stdin_open := true; alive := 1 |})
           {| stdout := {| data := header_block [(Length 20, true)] true ++ blit "{";
                           at_end := Broken |};
              stderr := {| data := []; at_end := Eof |};
              stdin_open := true; alive := 1 |}
           0 [(Length 20, true)] true (blit "{"));
    reflexivity.
Defined.

(** ** Payloads that are not responses *)

Lemma calls_nil : calls [] = [].
Proof. reflexivity. Qed.

Lemma request_handler_calls_nothing E d : Keeps calls (request_handler E d).
Proof. unfold request_handler, ext, debug. keeps calls_app. Qed.

Lemma notification_handler_calls_nothing E d :
  Keeps calls (notification_handler E d).
Proof. unfold notification_handler, ext, debug. keeps calls_app. Qed.

(** X9. Handling a payload that has a [method] field never calls a
    response handler, whichever branch the payload takes (that of an
    [error] field, which is tested first; that of a request; that of a
    notification), even if its [id] is that of a pending request; the
    table, the counter and the process are left as they were, and the
    handling returns. *)
Theorem method_payload_calls_no_handler (E : environ) (c : client)
    (d : list (pystr * value)) :
  dict_has (lit "method") d = true ->
  fst (handle E d c) = Ok tt
  /\ calls (trace (snd (handle E d c))) = calls (trace c)
  /\ handlers (snd (handle E d c)) = handlers c
  /\ request_id (snd (handle E d c)) = request_id c
  /\ process (snd (handle E d c)) = process c.
Proof.
  intros Hm. split; [apply handle_returns|].
  assert (K : Keeps calls (handle E d)).
  { apply (Keeps_try _ calls_app); [|intros e; apply Keeps_emit; reflexivity].
    unfold dispatch. rewrite Hm.
    pose proof (request_handler_calls_nothing E d).
    pose proof (notification_handler_calls_nothing E d).
    unfold ext, debug. keeps calls_app; assumption. }
  destruct (K c) as (Hp & Hr & Hh & evs & Ht & He).
  rewrite Ht, calls_app, He, app_nil_r. auto.
Qed.

Lemma method_payload_calls_no_handler_witness :
  fst (handle plain [(lit "id", VInt 1); (lit "method", VStr (lit "workspace/applyEdit"));
                     (lit "result", VDict [])] (initialized [] 1)) = Ok tt
  /\ calls (trace (snd (handle plain
                          [(lit "id", VInt 1);
                           (lit "method", VStr (lit "workspace/applyEdit"));
                           (lit "result", VDict [])] (initialized [] 1))))
     = calls (trace (initialized [] 1))
  /\ handlers (snd (handle plain
                      [(lit "id", VInt 1);
                       (lit "method", VStr (lit "workspace/applyEdit"));
                       (lit "result", VDict [])] (initialized [] 1)))
     = handlers (initialized [] 1)
  /\ request_id (snd (handle plain
                        [(lit "id", VInt 1);
                         (lit "method", VStr (lit "workspace/applyEdit"));
                         (lit "result", VDict [])] (initialized [] 1)))
     = request_id (initialized [] 1)
  /\ process (snd (handle plain
                     [(lit "id", VInt 1);
                      (lit "method", VStr (lit "workspace/applyEdit"));
                      (lit "result", VDict [])] (initialized [] 1)))
     = process (initialized [] 1).
Proof.
  apply (method_payload_calls_no_handler plain (initialized [] 1)
           [(lit "id", VInt 1); (lit "method", VStr (lit "workspace/applyEdit"));
            (lit "result", VDict [])]).
  reflexivity.
Defined.

(** ** Ids that [int()] does not take *)

(** X10. A response whose [id] is [null], a list or an object: [int()]
    raises TypeError before [handler_id] is bound, so the [debug] call of
    the [except] clause itself fails with UnboundLocalError. That is the
    exception the reader prints; the line "error handling response" is not
    logged, no handler is called, and the turn ends normally. *)
Theorem unusable_id_is_masked (E : environ) (c : client)
    (d : list (pystr * value)) :
  dict_has (lit "error") d = false ->
  dict_has (lit "method") d = false ->
  dict_has (lit "id") d = true ->
  (dict_get (lit "id") d = VNone
   \/ (exists l, dict_get (lit "id") d = VList l)
   \/ (exists o, dict_get (lit "id") d = VDict o)) ->
  handle E d c
  = (Ok tt, with_trace (trace c ++ [Printf (HandlingFailed UnboundLocalError)]) c).
Proof.
  intros He Hm Hi Hid.
  unfold handle, dispatch. rewrite He, Hm, Hi. unfold response_handler.
  assert (Hint : py_int (dict_get (lit "id") d) = Raise TypeError).
  { destruct Hid as [->|[[l ->]|[o ->]]]; reflexivity. }
  rewrite Hint. reflexivity.
Qed.

Lemma unusable_id_is_masked_witness :
  handle plain (response VNone (VInt 3)) (initialized [] 1)
  = (Ok tt,
     with_trace (trace (initialized [] 1)
                   ++ [Printf (HandlingFailed UnboundLocalError)])
       (initialized [] 1)).
Proof.
  apply (unusable_id_is_masked plain (initialized [] 1) (response VNone (VInt 3)));
    try reflexivity.
  left. reflexivity.
Defined.

(** ** The same response twice, and a response without a result *)

(** X11. Since an entry stays in the table, a response that arrives a
    second time for the same id has the handler called a second time; and a
    response without a [result] field has it called with [None]. *)
Theorem repeated_response_calls_again (E : environ) (c : client)
    (d : list (pystr * value)) (n : Z) (h : handler) :
  dict_has (lit "error") d = false ->
  dict_has (lit "method") d = false ->
  dict_has (lit "id") d = true ->
  py_int (dict_get (lit "id") d) = Ok n ->
  handlers c !! n = Some h ->
  calls (trace (snd (handle_all E [d; d] c)))
  = calls (trace c)
      ++ [(h, dict_get (lit "result") d); (h, dict_get (lit "result") d)]
  /\ (dict_lookup (lit "result") d = None ->
      calls (trace (snd (handle E d c))) = calls (trace c) ++ [(h, VNone)]).
Proof.
  intros He Hm Hi Hn Hh.
  assert (H1 : forall c0, handlers c0 !! n = Some h ->
             handlers (snd (handle E d c0)) = handlers c0
             /\ fst (handle E d c0) = Ok tt
             /\ calls (trace (snd (handle E d c0)))
                = calls (trace c0) ++ [(h, dict_get (lit "result") d)]).
  { intros c0 H0. rewrite (handle_response_found E d c0 n h He Hm Hi Hn H0).
    cbn [fst snd trace handlers with_trace]. repeat split.
    rewrite calls_app. cbn [calls].
    destruct (call E h (dict_get (lit "result") d)); reflexivity. }
  split.
  - cbn [handle_all]. unfold bind.
    destruct (H1 c Hh) as (Ha & Hb & Hc).
    destruct (handle E d c) as [[[]|e] c1]; [|discriminate].
    cbn [fst snd] in *. rewrite <- Ha in Hh.
    destruct (H1 c1 Hh) as (Ha' & Hb' & Hc').
    destruct (handle E d c1) as [[[]|e] c2]; [|discriminate].
    cbn [fst snd] in *. unfold ret. cbn [snd].
    rewrite Hc', Hc, <- app_assoc. reflexivity.
  - intros Hr. destruct (H1 c Hh) as (_ & _ & Hc). rewrite Hc.
    unfold dict_get. rewrite Hr. reflexivity.
Qed.

Lemma repeated_response_calls_again_witness :
  calls (trace (snd (handle_all plain [[(lit "id", VInt 1)]; [(lit "id", VInt 1)]]
                       (initialized [] 1))))
  = calls (trace (initialized [] 1))
      ++ [(7%nat, dict_get (lit "result") [(lit "id", VInt 1)]);
          (7%nat, dict_get (lit "result") [(lit "id", VInt 1)])]
  /\ (dict_lookup (lit "result") [(lit "id", VInt 1)] = None ->
      calls (trace (snd (handle plain [(lit "id", VInt 1)] (initialized [] 1))))
      = calls (trace (initialized [] 1)) ++ [(7%nat, VNone)]).
Proof.
  apply (repeated_response_calls_again plain (initialized [] 1)
           [(lit "id", VInt 1)] 1%Z 7%nat); reflexivity.
Defined.

(** ** A handler that raises *)

(** X12. A response handler that raises does not end the reader: the
    exception is logged by [response_handler], raised again, caught and
    printed by [read_stdout], and the loop goes on with what follows on the
    channel; table and counter are as before. *)
Theorem raising_handler_is_contained (E : environ) (f : nat) (c : client)
    (p : process_t) (k : nat) (body rest : bytes) (text : pystr)
    (d : list (pystr * value)) (n : Z) (h : handler) (e : exn) :
  process c = Some p ->
  alive p = S k ->
  data (stdout p) = frame body ++ rest ->
  body <> [] ->
  utf8_decode body = Some text ->
  json_loads text = Some (VDict d) ->
  dict_has (lit "error") d = false ->
  dict_has (lit "method") d = false ->
  dict_has (lit "id") d = true ->
  py_int (dict_get (lit "id") d) = Ok n ->
  handlers c !! n = Some h ->
  call E h (dict_get (lit "result") d) = Some e ->
  stdout_loop E (S f) c
  = stdout_loop E f
      (with_trace
         (trace c ++ got_json text d
            ++ [Called h (dict_get (lit "result") d);
                Debug (ResponseFailed n);
                Printf (HandlingFailed e)])
         (advanced rest (with_alive k p) c)).
Proof.
  intros Hp Ha Hd Hne Hu Hl He Hm Hi Hn Hh Hc.
  rewrite (stdout_loop_message E f c p k body rest text d Hp Ha Hd Hne Hu Hl).
  match goal with |- context [handle E d ?x] =>
    rewrite (handle_response_found E d x n h He Hm Hi Hn Hh) end.
  rewrite Hc. cbn [snd trace with_trace advanced with_process].
  rewrite <- app_assoc. reflexivity.
Qed.

Lemma raising_handler_is_contained_witness :
  stdout_loop rude 3 (initialized (frame due_body ++ frame stray_body) 3)
  = stdout_loop rude 2
      (with_trace
         (trace (initialized (frame due_body ++ frame stray_body) 3)
            ++ got_json (jlit "{'id':1,'result':{}}")
                 [(lit "id", VInt 1); (lit "result", VDict [])]
            ++ [Called 7%nat (dict_get (lit "result")
                                [(lit "id", VInt 1); (lit "result", VDict [])]);
                Debug (ResponseFailed 1);
                Printf (HandlingFailed (UserError 1))])
         (advanced (frame stray_body)
            (with_alive 2 (subordinate (frame due_body ++ frame stray_body) 3))
            (initialized (frame due_body ++ frame stray_body) 3))).
Proof.
  apply (raising_handler_is_contained rude 2
           (initialized (frame due_body ++ frame stray_body) 3)
           (subordinate (frame due_body ++ frame stray_body) 3) 2
           due_body (frame stray_body) (jlit "{'id':1,'result':{}}")
           [(lit "id", VInt 1); (lit "result", VDict [])] 1%Z 7%nat (UserError 1));
    try reflexivity.
  discriminate.
Defined.

(** ** The end of the file *)

Lemma eof_loop E err open rid hs : forall n t,
  stdout_loop E (S n)
    {| process := Some {| stdout := {| data := []; at_end := Eof |};
                          stderr := err; stdin_open := open; alive := n |};
       request_id := rid; handlers := hs; trace := t |}
  = (Ok tt,
     {| process := Some {| stdout := {| data := []; at_end := Eof |};
                           stderr := err; stdin_open := open; alive := 0 |};
        request_id := rid; handlers := hs;
        trace := t ++ [Debug StdoutEnded] |}).
Proof.
  induction n as [|n IH]; intros t; [reflexivity|].
  rewrite <- (IH t). reflexivity.
Qed.

(** X13. The end of the file does not end the reader: [readline] returns
    an empty line, no length is announced, and the loop turns again, as
    long as the subordinate answers the poll as alive. Only then does
    [read_stdout] log its end and return; it has logged nothing else and
    changed neither table nor counter. *)
Theorem eof_reader_polls_until_dead (E : environ) (err : channel)
    (open : bool) (n : nat) (rid : Z) (hs : gmap Z handler) (t : list event) :
  read_stdout E
    {| process := Some {| stdout := {| data := []; at_end := Eof |};
                          stderr := err; stdin_open := open; alive := n |};
       request_id := rid; handlers := hs; trace := t |}
  = (Ok tt,
     {| process := Some {| stdout := {| data := []; at_end := Eof |};
                           stderr := err; stdin_open := open; alive := 0 |};
        request_id := rid; handlers := hs;
        trace := t ++ [Debug StdoutEnded] |}).
Proof. unfold read_stdout. cbn [lifetime process alive]. apply eof_loop. Qed.

(** ** The reader of the standard error *)

Lemma stderr_eof_loop E out open rid hs : forall n t,
  stderr_loop E (S n) (err_client out open rid hs [] Eof n t)
  = (Ok tt, err_client out open rid hs [] Eof 0 (t ++ [Debug StderrEnded])).
Proof.
  induction n as [|n IH]; intros t; [reflexivity|].
  rewrite <- (IH t). cbn [stderr_loop]. unfold bind at 1. cbn.
  unfold stderr_turn, try_except, bind. cbn.
  rewrite andb_false_r. reflexivity.
Qed.

Lemma stderr_line_turn E out open rid hs l rest n t f :
  no_LF l = true ->
  stderr_loop E (S f) (err_client out open rid hs (l ++ x0a :: rest) Eof (S n) t)
  = stderr_loop E f
      (err_client out open rid hs rest Eof n
         (t ++ if log_stderr E then [Printf (StderrLine (bstrip (l ++ [x0a])))]
               else [])).
Proof.
  intros Hl. cbn [stderr_loop]. unfold bind at 1. cbn.
  unfold stderr_turn, try_except, bind, stderr_readline, bind, self_process.
  cbn. unfold chan_readline. cbn [data at_end].
  rewrite (take_line_app l rest Hl). cbn.
  assert (Hlen : exists m, length (l ++ [x0a]) = S m).
  { rewrite length_app, Nat.add_comm. eexists. reflexivity. }
  destruct Hlen as [m ->]. rewrite andb_true_r.
  destruct (log_stderr E); cbn; [reflexivity|].
  rewrite app_nil_r. reflexivity.
Qed.

Lemma stderr_lines_loop E out open rid hs k lines : forall t,
  forallb no_LF lines = true ->
  stderr_loop E (S (length lines + k))
    (err_client out open rid hs (text_lines lines) Eof (length lines + k) t)
  = (Ok tt,
     err_client out open rid hs [] Eof 0
       (t ++ stderr_prints E lines ++ [Debug StderrEnded])).
Proof.
  induction lines as [|l lines IH]; intros t Hok.
  - cbn [length Nat.add text_lines map concat].
    rewrite stderr_eof_loop. unfold stderr_prints.
    destruct (log_stderr E); reflexivity.
  - cbn [forallb] in Hok. apply andb_true_iff in Hok. destruct Hok as [Hl Hls].
    cbn [length Nat.add]. unfold text_lines. cbn [map concat].
    rewrite <- app_assoc. cbn [app].
    rewrite (stderr_line_turn E out open rid hs l _ _ t _ Hl).
    fold (text_lines lines). rewrite (IH _ Hls).
    unfold stderr_prints. destruct (log_stderr E); cbn [map app];
      rewrite <- ?app_assoc; reflexivity.
Qed.

(** X14. While the subordinate answers the poll as alive (here for at
    least as many polls as there are lines), [read_stderr] takes the
    standard error line by line: with [log_stderr] on, each line is printed,
    stripped, in order (an empty line too, as an empty text); with it off
    the lines are read and dropped.
    At the end of the file it prints no more and polls until the
    subordinate is dead, then logs its end. Table, counter and standard
    output are not touched. *)
Theorem stderr_lines_forwarded (E : environ) (out : channel) (open : bool)
    (rid : Z) (hs : gmap Z handler) (lines : list bytes) (k : nat)
    (t : list event) :
  forallb no_LF lines = true ->
  read_stderr E
    (err_client out open rid hs (text_lines lines) Eof (length lines + k) t)
  = (Ok tt,
     err_client out open rid hs [] Eof 0
       (t ++ stderr_prints E lines ++ [Debug StderrEnded])).
Proof.
  intros Hok. unfold read_stderr.
  cbn [lifetime process err_client alive].
  apply (stderr_lines_loop E out open rid hs k lines t Hok).
Qed.

Lemma stderr_lines_forwarded_witness :
  read_stderr plain
    (err_client {| data := frame due_body; at_end := Eof |} true 0 ∅
       (text_lines [blit "  warning: slow "; []; blit "done"]) Eof
       (length [blit "  warning: slow "; []; blit "done"] + 2) [])
  = (Ok tt,
     err_client {| data := frame due_body; at_end := Eof |} true 0 ∅ [] Eof 0
       ([] ++ stderr_prints plain [blit "  warning: slow "; []; blit "done"]
           ++ [Debug StderrEnded])).
Proof.
  apply (stderr_lines_forwarded plain {| data := frame due_body; at_end := Eof |}
           true 0%Z ∅ [blit "  warning: slow "; []; blit "done"] 2 []).
  reflexivity.
Defined.

Lemma take_line_none d : no_LF d = true -> take_line d = (d, None).
Proof.
  induction d as [|x d IH]; [reflexivity|].
  cbn [no_LF forallb take_line]. intros H. apply andb_true_iff in H.
  destruct H as [Hx Hd]. apply negb_true_iff in Hx.
  rewrite Hx, (IH Hd). reflexivity.
Qed.

(** X15. A failed read of the standard error ends [read_stderr] and nothing
    else: the failure is printed and the function returns without its
    closing log entry; the subordinate is not terminated, [self.process]
    stays, the standard output is as it was. *)
Theorem stderr_failure_leaves_process (E : environ) (out : channel)
    (open : bool) (rid : Z) (hs : gmap Z handler) (d : bytes) (n : nat)
    (t : list event) :
  no_LF d = true ->
  read_stderr E (err_client out open rid hs d Broken (S n) t)
  = (Ok tt,
     err_client out open rid hs [] Broken n
       (t ++ [Printf (StderrException IOError)])).
Proof.
  intros Hd. unfold read_stderr. cbn [lifetime process err_client alive].
  cbn [stderr_loop]. unfold bind at 1. cbn.
  unfold stderr_turn, try_except, bind, stderr_readline, bind, self_process.
  cbn. unfold chan_readline. cbn [data at_end].
  rewrite (take_line_none d Hd). reflexivity.
Qed.

Lemma stderr_failure_leaves_process_witness :
  read_stderr plain
    (err_client {| data := frame due_body; at_end := Eof |} true 0 ∅
       (blit "half a li") Broken 3 [])
  = (Ok tt,
     err_client {| data := frame due_body; at_end := Eof |} true 0 ∅ [] Broken 2
       ([] ++ [Printf (StderrException IOError)])).
Proof.
  apply (stderr_failure_leaves_process plain
           {| data := frame due_body; at_end := Eof |} true 0%Z ∅
           (blit "half a li") 2 []).
  reflexivity.
Defined.
